(** * WdiAutofocus and CPyCamera: a shallow embedding of two device adapters

    The development follows [DeviceAdapters/Zaber/WdiAutofocus.cpp],
    [WdiAutofocus.h] and the camera bridge [CPyCamera].  C++ [long] and
    [int] values are integers of [Z], [float] and [double] are IEEE 754
    numbers of [SpecFloat] (binary32 and binary64), member variables are
    fields of a record that every member function threads through. *)

From Stdlib Require Import ZArith Lia Bool List QArith Qabs.
From Stdlib Require Import Floats.SpecFloat.
From stdpp Require Import base strings gmap.

Local Open Scope Z_scope.

(** ** IEEE 754 arithmetic of the source's [float] and [double] *)

Module Float32.

Definition prec : Z := 24.
Definition emax : Z := 128.

(** The conversion [int -> float] of the usual arithmetic conversions
    (round to nearest, ties to even). *)
Definition of_int (z : Z) : spec_float := binary_normalize prec emax z 0 false.

Definition div (x y : spec_float) : spec_float := SFdiv prec emax x y.

(** [std::abs(float)] *)
Definition abs (x : spec_float) : spec_float := SFabs x.

End Float32.

Module Float64.

Definition prec : Z := 53.
Definition emax : Z := 1024.

Definition of_int (z : Z) : spec_float := binary_normalize prec emax z 0 false.

Definition mul (x y : spec_float) : spec_float := SFmul prec emax x y.
Definition div (x y : spec_float) : spec_float := SFdiv prec emax x y.

(** The operator [==] of C++ on [double]: a NaN differs from everything,
    itself included, and the two zeros are equal. *)
Definition eqb (x y : spec_float) : bool := SFeqb x y.

(** The implicit conversion [float -> double]. *)
Definition of_float (x : spec_float) : spec_float :=
  match x with
  | S754_finite s m e => binary_round prec emax s m e
  | _ => x
  end.

End Float64.

(** The rational number a floating-point datum stands for (0 for the
    infinities and NaN, which [SFis_finite] tells apart). *)
Definition SF2Q (x : spec_float) : Q :=
  match x with
  | S754_finite s m e =>
      match e with
      | Zneg p => cond_Zopp s (Zpos m) # (2 ^ p)%positive
      | _ => inject_Z (cond_Zopp s (Zpos m) * 2 ^ e)
      end
  | _ => 0%Q
  end.

Definition SFis_finite (x : spec_float) : bool :=
  match x with
  | S754_finite _ _ _ | S754_zero _ => true
  | _ => false
  end.

(** ** The autofocus adapter: data *)

(** The failures of the specification's taxonomy; they are the exceptions
    of the transport library and, wrapped in a return code, what the host
    receives. *)
Inductive error : Set :=
| ConnectionError
| DeviceCommunicationError
| ConfigurationError.

(** The [int] return code of the device API: [DEVICE_OK] or the code of a
    failure (the numeric values are declared by the host framework). *)
Inductive code : Set :=
| DEVICE_OK
| DEVICE_ERR (e : error).

Definition error_eqb (a b : error) : bool :=
  match a, b with
  | ConnectionError, ConnectionError
  | DeviceCommunicationError, DeviceCommunicationError
  | ConfigurationError, ConfigurationError => true
  | _, _ => false
  end.

(** [ret == DEVICE_OK] and friends *)
Definition code_eqb (a b : code) : bool :=
  match a, b with
  | DEVICE_OK, DEVICE_OK => true
  | DEVICE_ERR x, DEVICE_ERR y => error_eqb x y
  | _, _ => false
  end.

(** The enumerations of [namespace MM] the adapter uses. *)
Module MM.

(** [MM::ActionType] *)
Inductive ActionType : Set :=
| NoAction | BeforeGet | AfterSet | IsSequenceable
| AfterLoadSequence | StartSequence | StopSequence.

(** [MM::PropertyType] *)
Inductive PropertyType : Set := Undef | String | Float | Integer.

End MM.

(** The member functions registered as property actions. *)
Inductive Action : Set :=
| ActPortGetSet | ActWdiHostGetSet | ActWdiPortGetSet
| ActFocusAddressGetSet | ActFocusAxisGetSet | ActObjectiveTurretAddressGetSet
| ActLimitMinGetSet | ActLimitMaxGetSet.

(** A registered property.  Its value is not cached here: the members of
    the adapter hold it and the action reads and writes them. *)
Record Property : Set := mkProperty {
  prop_type : MM.PropertyType;
  prop_readOnly : bool;
  prop_action : option Action;
  prop_preInit : bool;
  prop_limits : option (Z * Z)
}.

(** What a property write carries. *)
Inductive PropValue : Set :=
| VString (s : string)
| VInteger (z : Z)
| VFloat (f : spec_float).

(** [zml::Connection], the serial connection to the motion controllers *)
Record Connection : Set := mkConnection { conn_port : string }.

(** [zml::Axis], as [connection_->getDevice(a).getAxis(n)] builds it *)
Record Axis : Set := mkAxis { axis_device : Z; axis_number : Z }.

(** [zmlmi::WdiAutofocusProvider] *)
Record WdiAutofocusProvider : Set := mkProvider {
  prov_host : string;
  prov_port : Z;
  prov_id : Z
}.

(** [zmlmi::Autofocus(providerId, focusAxis, turretDevice)] *)
Record Autofocus : Set := mkAutofocus {
  af_providerId : Z;
  af_focusAxis : Axis;
  af_objectiveTurret : option Z
}.

(** The object: the members of [WdiAutofocus] and those it inherits from
    [ZaberBase] ([initialized_], [port_], [connection_]) and from
    [CDeviceBase] ([properties_]).  A null [connection_] is [None]; so are
    a default-constructed [provider_] and [autofocus_]. *)
Record WdiAutofocus : Type := mkWdiAutofocus {
  initialized_ : bool;
  port_ : string;
  connection_ : option Connection;
  properties_ : gmap string Property;
  wdiPort_ : Z;
  wdiHost_ : string;
  focusAddress_ : Z;
  focusAxis_ : Z;
  objectiveTurretAddress_ : Z;
  limitMin_ : spec_float;
  limitMax_ : spec_float;
  provider_ : option WdiAutofocusProvider;
  autofocus_ : option Autofocus
}.

Definition set_initialized_ (v : bool) (d : WdiAutofocus) : WdiAutofocus :=
  mkWdiAutofocus v (port_ d) (connection_ d) (properties_ d) (wdiPort_ d)
    (wdiHost_ d) (focusAddress_ d) (focusAxis_ d) (objectiveTurretAddress_ d)
    (limitMin_ d) (limitMax_ d) (provider_ d) (autofocus_ d).

Definition set_port_ (v : string) (d : WdiAutofocus) : WdiAutofocus :=
  mkWdiAutofocus (initialized_ d) v (connection_ d) (properties_ d) (wdiPort_ d)
    (wdiHost_ d) (focusAddress_ d) (focusAxis_ d) (objectiveTurretAddress_ d)
    (limitMin_ d) (limitMax_ d) (provider_ d) (autofocus_ d).

Definition set_connection_ (v : option Connection) (d : WdiAutofocus) : WdiAutofocus :=
  mkWdiAutofocus (initialized_ d) (port_ d) v (properties_ d) (wdiPort_ d)
    (wdiHost_ d) (focusAddress_ d) (focusAxis_ d) (objectiveTurretAddress_ d)
    (limitMin_ d) (limitMax_ d) (provider_ d) (autofocus_ d).

Definition set_properties_ (v : gmap string Property) (d : WdiAutofocus) : WdiAutofocus :=
  mkWdiAutofocus (initialized_ d) (port_ d) (connection_ d) v (wdiPort_ d)
    (wdiHost_ d) (focusAddress_ d) (focusAxis_ d) (objectiveTurretAddress_ d)
    (limitMin_ d) (limitMax_ d) (provider_ d) (autofocus_ d).

Definition set_wdiPort_ (v : Z) (d : WdiAutofocus) : WdiAutofocus :=
  mkWdiAutofocus (initialized_ d) (port_ d) (connection_ d) (properties_ d) v
    (wdiHost_ d) (focusAddress_ d) (focusAxis_ d) (objectiveTurretAddress_ d)
    (limitMin_ d) (limitMax_ d) (provider_ d) (autofocus_ d).

Definition set_wdiHost_ (v : string) (d : WdiAutofocus) : WdiAutofocus :=
  mkWdiAutofocus (initialized_ d) (port_ d) (connection_ d) (properties_ d) (wdiPort_ d)
    v (focusAddress_ d) (focusAxis_ d) (objectiveTurretAddress_ d)
    (limitMin_ d) (limitMax_ d) (provider_ d) (autofocus_ d).

Definition set_focusAddress_ (v : Z) (d : WdiAutofocus) : WdiAutofocus :=
  mkWdiAutofocus (initialized_ d) (port_ d) (connection_ d) (properties_ d) (wdiPort_ d)
    (wdiHost_ d) v (focusAxis_ d) (objectiveTurretAddress_ d)
    (limitMin_ d) (limitMax_ d) (provider_ d) (autofocus_ d).

Definition set_focusAxis_ (v : Z) (d : WdiAutofocus) : WdiAutofocus :=
  mkWdiAutofocus (initialized_ d) (port_ d) (connection_ d) (properties_ d) (wdiPort_ d)
    (wdiHost_ d) (focusAddress_ d) v (objectiveTurretAddress_ d)
    (limitMin_ d) (limitMax_ d) (provider_ d) (autofocus_ d).

Definition set_objectiveTurretAddress_ (v : Z) (d : WdiAutofocus) : WdiAutofocus :=
  mkWdiAutofocus (initialized_ d) (port_ d) (connection_ d) (properties_ d) (wdiPort_ d)
    (wdiHost_ d) (focusAddress_ d) (focusAxis_ d) v
    (limitMin_ d) (limitMax_ d) (provider_ d) (autofocus_ d).

Definition set_limitMin_ (v : spec_float) (d : WdiAutofocus) : WdiAutofocus :=
  mkWdiAutofocus (initialized_ d) (port_ d) (connection_ d) (properties_ d) (wdiPort_ d)
    (wdiHost_ d) (focusAddress_ d) (focusAxis_ d) (objectiveTurretAddress_ d)
    v (limitMax_ d) (provider_ d) (autofocus_ d).

Definition set_limitMax_ (v : spec_float) (d : WdiAutofocus) : WdiAutofocus :=
  mkWdiAutofocus (initialized_ d) (port_ d) (connection_ d) (properties_ d) (wdiPort_ d)
    (wdiHost_ d) (focusAddress_ d) (focusAxis_ d) (objectiveTurretAddress_ d)
    (limitMin_ d) v (provider_ d) (autofocus_ d).

Definition set_provider_ (v : option WdiAutofocusProvider) (d : WdiAutofocus) : WdiAutofocus :=
  mkWdiAutofocus (initialized_ d) (port_ d) (connection_ d) (properties_ d) (wdiPort_ d)
    (wdiHost_ d) (focusAddress_ d) (focusAxis_ d) (objectiveTurretAddress_ d)
    (limitMin_ d) (limitMax_ d) v (autofocus_ d).

Definition set_autofocus_ (v : option Autofocus) (d : WdiAutofocus) : WdiAutofocus :=
  mkWdiAutofocus (initialized_ d) (port_ d) (connection_ d) (properties_ d) (wdiPort_ d)
    (wdiHost_ d) (focusAddress_ d) (focusAxis_ d) (objectiveTurretAddress_ d)
    (limitMin_ d) (limitMax_ d) (provider_ d) v.

(** ** The outside world

    The transport library and the devices behind it are collaborators the
    adapter only calls.  An [Env] fixes how they answer during one call;
    every call that reaches them is appended to a trace. *)
Record Env : Type := mkEnv {
  serial_opens : string -> bool;         (* the serial port can be opened *)
  tcp_opens : string -> Z -> option Z;   (* provider id, or endpoint unreachable *)
  device_resolves : Z -> bool;
  axis_resolves : Z -> Z -> bool;
  axis_busy : option bool;               (* [None]: the read fails *)
  status_inFocus : option bool;          (* [None]: the read fails *)
  generic_read : option (list Z);        (* [None]: the read fails *)
  settings_get : string -> option spec_float;
  limit_write_ok : bool;
  focus_ok : bool
}.

Inductive Event : Type :=
| EvGetConnection (port : string)
| EvOpenTcp (host : string) (port : Z)
| EvGetDevice (address : Z)
| EvGetAxis (address axis : Z)
| EvIsBusy
| EvGetStatus
| EvGenericRead (a b c d : Z) (mode : string)
| EvSettingsGet (name : string)
| EvSetLimitMin (v : spec_float)
| EvSetLimitMax (v : spec_float)
| EvFocusOnce (scan : bool)
| EvStartFocusLoop
| EvStopFocusLoop.

(** ** A state and exception monad

    A member function runs on the object, the trace and a frame [L] of
    locals: the variables a lambda captures by reference, or the argument
    a function receives by reference.  It returns or throws; what it wrote
    before throwing stays written. *)
Inductive Result (A : Type) : Type :=
| Ok (a : A)
| Throw (e : error).
Arguments Ok {A} a.
Arguments Throw {A} e.

Record St (L : Type) : Type := mkSt {
  dev : WdiAutofocus;
  trace : list Event;
  locals : L
}.
Arguments mkSt {L} dev trace locals.
Arguments dev {L} s.
Arguments trace {L} s.
Arguments locals {L} s.

Definition M (L A : Type) : Type := Env -> St L -> Result A * St L.

Definition ret {L A} (a : A) : M L A := fun _ s => (Ok a, s).

Definition bind {L A B} (m : M L A) (k : A -> M L B) : M L B :=
  fun env s =>
    match m env s with
    | (Ok a, s') => k a env s'
    | (Throw e, s') => (Throw e, s')
    end.

Definition throw {L A} (e : error) : M L A := fun _ s => (Throw e, s).

(** [try { m } catch (e) { h e }] *)
Definition try_catch {L A} (m : M L A) (h : error -> M L A) : M L A :=
  fun env s =>
    match m env s with
    | (Ok a, s') => (Ok a, s')
    | (Throw e, s') => h e env s'
    end.

Declare Scope cpp_scope.
Delimit Scope cpp_scope with cpp.
Notation "'do' x <- c ; k" := (bind c (fun x => k))
  (at level 10, x name, c at level 100, k at level 200) : cpp_scope.
Notation "'do' ' p <- c ; k" := (bind c (fun x => let 'p := x in k))
  (at level 10, p pattern, c at level 100, k at level 200) : cpp_scope.
Notation "'call' c ; k" := (bind c (fun _ => k))
  (at level 10, c at level 100, k at level 200) : cpp_scope.
Local Open Scope cpp_scope.

(** [*this] *)
Definition this {L} : M L WdiAutofocus := fun _ s => (Ok (dev s), s).

(** an assignment to a member *)
Definition assign {L} (f : WdiAutofocus -> WdiAutofocus) : M L unit :=
  fun _ s => (Ok tt, mkSt (f (dev s)) (trace s) (locals s)).

Definition ask {L} : M L Env := fun env s => (Ok env, s).

Definition emit {L} (ev : Event) : M L unit :=
  fun _ s => (Ok tt, mkSt (dev s) (trace s ++ [ev]) (locals s)).

Definition get_local {L} : M L L := fun _ s => (Ok (locals s), s).

Definition set_local {L} (v : L) : M L unit :=
  fun _ s => (Ok tt, mkSt (dev s) (trace s) v).

(** Runs [m] on a fresh frame holding [init] and hands back the frame's
    final content next to the result; an exception crosses the frame. *)
Definition with_local {L L' A} (init : L') (m : M L' A) : M L (A * L') :=
  fun env s =>
    match m env (mkSt (dev s) (trace s) init) with
    | (Ok a, s') => (Ok (a, locals s'), mkSt (dev s') (trace s') (locals s))
    | (Throw e, s') => (Throw e, mkSt (dev s') (trace s') (locals s))
    end.

(** ** The transport library, as the adapter consumes it

    Each primitive logs the call and answers as the environment says. *)

(** Modelled from the spec: [ConnectionManager::getConnection] of the
    connection layer, the [openConnection] contract: a handle, or
    [ConnectionError] when the endpoint is unreachable. *)
Definition getConnection {L} (port : string) : M L Connection :=
  call emit (EvGetConnection port);
  do env <- ask;
  if serial_opens env port then ret (mkConnection port) else throw ConnectionError.

(** Modelled from the spec: [zmlmi::WdiAutofocusProvider::openTcp], the
    [openConnection(host, port)] contract. *)
Definition openTcp {L} (host : string) (port : Z) : M L WdiAutofocusProvider :=
  call emit (EvOpenTcp host port);
  do env <- ask;
  match tcp_opens env host port with
  | Some id => ret (mkProvider host port id)
  | None => throw ConnectionError
  end.

(** Modelled from the spec: [connection_->getDevice(address)], which
    resolves a sub-device or fails; the connection pointer is dereferenced,
    and the source never gets here with a null one. *)
Definition getDevice {L} (c : option Connection) (address : Z) : M L Z :=
  match c with
  | None => throw ConnectionError
  | Some _ =>
      call emit (EvGetDevice address);
      do env <- ask;
      if device_resolves env address then ret address else throw ConnectionError
  end.

(** Modelled from the spec: [Device::getAxis(axis)]. *)
Definition getAxis {L} (device axis : Z) : M L Axis :=
  call emit (EvGetAxis device axis);
  do env <- ask;
  if axis_resolves env device axis then ret (mkAxis device axis)
  else throw ConnectionError.

(** Modelled from the spec: [AxisHandle.isBusy()], a read over the
    transport that fails with [DeviceCommunicationError]. *)
Definition isBusy {L} : M L bool :=
  call emit EvIsBusy;
  do env <- ask;
  match axis_busy env with
  | Some b => ret b
  | None => throw DeviceCommunicationError
  end.

(** Modelled from the spec: [autofocus_.getStatus()], the device status
    with its "in focus" flag. *)
Definition getStatus {L} : M L bool :=
  call emit EvGetStatus;
  do env <- ask;
  match status_inFocus env with
  | Some b => ret b
  | None => throw DeviceCommunicationError
  end.

(** Modelled from the spec: the generic register read, keyed by
    [(channel, length, count, offset, mode)]. *)
Definition genericRead {L} (a b c d : Z) (mode : string) : M L (list Z) :=
  call emit (EvGenericRead a b c d mode);
  do env <- ask;
  match generic_read env with
  | Some v => ret v
  | None => throw DeviceCommunicationError
  end.

(** Modelled from the spec: [getSettings().get(name)]. *)
Definition settingsGet {L} (name : string) : M L spec_float :=
  call emit (EvSettingsGet name);
  do env <- ask;
  match settings_get env name with
  | Some v => ret v
  | None => throw DeviceCommunicationError
  end.

(** Modelled from the spec: the device writes [setLimitMin] and
    [setLimitMax], and the focus commands. *)
Definition device_write {L} (ev : Event) (ok : Env -> bool) : M L unit :=
  call emit ev;
  do env <- ask;
  if ok env then ret tt else throw DeviceCommunicationError.

Definition setLimitMin {L} (v : spec_float) : M L unit :=
  device_write (EvSetLimitMin v) limit_write_ok.

Definition setLimitMax {L} (v : spec_float) : M L unit :=
  device_write (EvSetLimitMax v) limit_write_ok.

Definition focusOnce {L} (scan : bool) : M L unit :=
  device_write (EvFocusOnce scan) focus_ok.

Definition startFocusLoop {L} : M L unit := device_write EvStartFocusLoop focus_ok.

Definition stopFocusLoop {L} : M L unit := device_write EvStopFocusLoop focus_ok.

(** ** [ZaberBase] *)

(** Modelled from the spec: [ZaberBase::handleException] runs the wrapped
    closure and turns a failure into the return code the caller gets; the
    connection state is not touched. *)
Definition handleException {L} (wrapped : M L unit) : M L code :=
  try_catch (call wrapped; ret DEVICE_OK) (fun e => ret (DEVICE_ERR e)).

(** Modelled from the spec: [ZaberBase::resetConnection] is the one
    invalidation entry point; it sets the state to Disconnected. *)
Definition resetConnection {L} : M L unit := assign (set_connection_ None).

(** Modelled from the spec: [ZaberBase::onNewConnection], the base hook,
    which the override calls first. *)
Definition ZaberBase_onNewConnection {L} : M L unit := ret tt.

(** [namespace WdiAutofocus_ { const double xLdaNativePerMm = 1000000.0; }] *)
Definition xLdaNativePerMm : spec_float := Float64.of_int 1000000.

(** [WdiAutofocus::onNewConnection] *)
Definition onNewConnection {L} : M L unit :=
  call ZaberBase_onNewConnection;
  do d <- this;
  do p <- openTcp (wdiHost_ d) (wdiPort_ d);
  call assign (set_provider_ (Some p));
  do d <- this;
  do focusDevice <- getDevice (connection_ d) (focusAddress_ d);
  do focusAxis <- getAxis focusDevice (focusAxis_ d);
  do turretDevice <-
    (if 0 <? objectiveTurretAddress_ d
     then do t <- getDevice (connection_ d) (objectiveTurretAddress_ d); ret (Some t)
     else ret None);
  do d <- this;
  assign (set_autofocus_
            (option_map (fun p => mkAutofocus (prov_id p) focusAxis turretDevice)
                        (provider_ d))).

(** Modelled from the spec: [ZaberBase::ensureConnected].  When the state
    is Disconnected it opens the connection and runs [onNewConnection]; the
    state becomes Connected only if all of it succeeds, and a failure
    leaves it Disconnected and goes on to the caller. *)
Definition ensureConnected {L} : M L unit :=
  do d <- this;
  match connection_ d with
  | Some _ => ret tt
  | None =>
      do c <- getConnection (port_ d);
      call assign (set_connection_ (Some c));
      try_catch onNewConnection
        (fun e => call assign (set_connection_ None); throw e)
  end.

(** ** [CDeviceBase]: the property table *)

(** Modelled from the spec: property registration by the host framework
    ([CreateProperty] and its typed variants).  The initial value is the
    member the action reads, so the table keeps none. *)
Definition CreateProperty (name : string) (value : PropValue) (eType : MM.PropertyType)
    (readOnly : bool) (pAct : option Action) (isPreInitProperty : bool)
    (d : WdiAutofocus) : WdiAutofocus :=
  match properties_ d !! name with
  | Some _ => d
  | None =>
      set_properties_
        (<[name := mkProperty eType readOnly pAct isPreInitProperty None]> (properties_ d)) d
  end.

Definition CreateIntegerProperty (name : string) (value : Z) (readOnly : bool)
    (pAct : option Action) (isPreInitProperty : bool) : WdiAutofocus -> WdiAutofocus :=
  CreateProperty name (VInteger value) MM.Integer readOnly pAct isPreInitProperty.

Definition CreateFloatProperty (name : string) (value : spec_float) (readOnly : bool)
    (pAct : option Action) (isPreInitProperty : bool) : WdiAutofocus -> WdiAutofocus :=
  CreateProperty name (VFloat value) MM.Float readOnly pAct isPreInitProperty.

(** Modelled from the spec: [SetPropertyLimits] declares the bounds of the
    property of that name, and of no other. *)
Definition SetPropertyLimits (name : string) (lowerLimit upperLimit : Z)
    (d : WdiAutofocus) : WdiAutofocus :=
  match properties_ d !! name with
  | None => d
  | Some p =>
      set_properties_
        (<[name := mkProperty (prop_type p) (prop_readOnly p) (prop_action p)
                     (prop_preInit p) (Some (lowerLimit, upperLimit))]> (properties_ d)) d
  end.

(** Whether a value lies within the declared bounds of a property. *)
Definition within_limits (p : Property) (v : PropValue) : bool :=
  match prop_limits p, v with
  | Some (lo, hi), VInteger z => (lo <=? z) && (z <=? hi)
  | Some (lo, hi), VFloat f => SFleb (Float64.of_int lo) f && SFleb f (Float64.of_int hi)
  | _, _ => true
  end.

(** ** The constructor *)

(** Modelled from the spec: the members [ZaberBase] initialises
    ([initialized_], [port_], [connection_]) and the empty table of
    [CDeviceBase]; the others are the constructor's initialiser list. *)
Definition initial_members : WdiAutofocus :=
  mkWdiAutofocus false "Undefined" None ∅
    27 "Undefined" 1 1 (-1) (S754_zero false) (Float64.of_int 25) None None.

Definition g_WdiAutofocusName : string := "WdiAutofocus".
Definition g_WdiAutofocusDescription : string := "Zaber WDI Autofocus device adapter".

(** [WdiAutofocus::WdiAutofocus] *)
Definition WdiAutofocus_ctor : WdiAutofocus :=
  let d := initial_members in
  let d := CreateProperty "Name" (VString g_WdiAutofocusName) MM.String true None false d in
  let d := CreateProperty "Description" (VString g_WdiAutofocusDescription) MM.String true None false d in
  let d := CreateProperty "Zaber Serial Port" (VString (port_ d)) MM.String false
             (Some ActPortGetSet) true d in
  let d := CreateProperty "WDI Hostname/IP" (VString (wdiHost_ d)) MM.String false
             (Some ActWdiHostGetSet) true d in
  let d := CreateIntegerProperty "WDI Port" (wdiPort_ d) false (Some ActWdiPortGetSet) true d in
  let d := CreateIntegerProperty "Focus Stage Device Number" (focusAddress_ d) false
             (Some ActFocusAddressGetSet) true d in
  let d := SetPropertyLimits "Focus Stage Device Number" 1 99 d in
  let d := CreateIntegerProperty "Focus Stage Axis Number" (focusAxis_ d) false
             (Some ActFocusAxisGetSet) true d in
  let d := SetPropertyLimits "Focus Stage Axis Number" 1 99 d in
  let d := CreateIntegerProperty "Objective Turret Device Number" (objectiveTurretAddress_ d)
             false (Some ActObjectiveTurretAddressGetSet) true d in
  let d := SetPropertyLimits "Focus Stage Axis Number" (-1) 99 d in
  d.

(** ** Member functions *)

(** [WdiAutofocus::Shutdown] *)
Definition Shutdown {L} : M L code :=
  do d <- this;
  call (if initialized_ d then assign (set_initialized_ false) else ret tt);
  ret DEVICE_OK.

(** [WdiAutofocus::Busy] *)
Definition Busy {L} : M L bool :=
  do '(r, busy) <-
    with_local false
      (handleException
         (call ensureConnected;
          do b <- isBusy;
          set_local b));
  ret (code_eqb r DEVICE_OK && busy).

(** The action handlers run on a frame that holds the value of [pProp]:
    [pProp->Set(x)] writes it and [pProp->Get(x)] reads it into [x]. *)

(** [WdiAutofocus::WdiHostGetSet] *)
Definition WdiHostGetSet (eAct : MM.ActionType) : M string code :=
  call match eAct with
       | MM.BeforeGet => do d <- this; set_local (wdiHost_ d)
       | MM.AfterSet =>
           do d <- this;
           call (if initialized_ d then resetConnection else ret tt);
           do v <- get_local;
           assign (set_wdiHost_ v)
       | _ => ret tt
       end;
  ret DEVICE_OK.

(** [WdiAutofocus::WdiPortGetSet] *)
Definition WdiPortGetSet (eAct : MM.ActionType) : M Z code :=
  call match eAct with
       | MM.BeforeGet => do d <- this; set_local (wdiPort_ d)
       | MM.AfterSet =>
           do d <- this;
           call (if initialized_ d then resetConnection else ret tt);
           do v <- get_local;
           assign (set_wdiPort_ v)
       | _ => ret tt
       end;
  ret DEVICE_OK.

(** [WdiAutofocus::PortGetSet] *)
Definition PortGetSet (eAct : MM.ActionType) : M string code :=
  call match eAct with
       | MM.BeforeGet => do d <- this; set_local (port_ d)
       | MM.AfterSet =>
           do d <- this;
           call (if initialized_ d then resetConnection else ret tt);
           do v <- get_local;
           assign (set_port_ v)
       | _ => ret tt
       end;
  ret DEVICE_OK.

(** [WdiAutofocus::FocusAddressGetSet] *)
Definition FocusAddressGetSet (eAct : MM.ActionType) : M Z code :=
  call match eAct with
       | MM.AfterSet =>
           do d <- this;
           call (if initialized_ d then resetConnection else ret tt);
           do v <- get_local;
           assign (set_focusAddress_ v)
       | MM.BeforeGet => do d <- this; set_local (focusAddress_ d)
       | _ => ret tt
       end;
  ret DEVICE_OK.

(** [WdiAutofocus::FocusAxisGetSet] *)
Definition FocusAxisGetSet (eAct : MM.ActionType) : M Z code :=
  call match eAct with
       | MM.AfterSet =>
           do d <- this;
           call (if initialized_ d then resetConnection else ret tt);
           do v <- get_local;
           assign (set_focusAxis_ v)
       | MM.BeforeGet => do d <- this; set_local (focusAxis_ d)
       | _ => ret tt
       end;
  ret DEVICE_OK.

(** [WdiAutofocus::ObjectiveTurretAddressGetSet] *)
Definition ObjectiveTurretAddressGetSet (eAct : MM.ActionType) : M Z code :=
  call match eAct with
       | MM.AfterSet =>
           do d <- this;
           call (if initialized_ d then resetConnection else ret tt);
           do v <- get_local;
           assign (set_objectiveTurretAddress_ v)
       | MM.BeforeGet => do d <- this; set_local (objectiveTurretAddress_ d)
       | _ => ret tt
       end;
  ret DEVICE_OK.

(** [WdiAutofocus::LimitMinGetSet] *)
Definition LimitMinGetSet (eAct : MM.ActionType) : M spec_float code :=
  match eAct with
  | MM.AfterSet =>
      do newLimit <- get_local;
      do d <- this;
      let update := negb (Float64.eqb (limitMin_ d) newLimit) in
      call assign (set_limitMin_ newLimit);
      if update
      then handleException
             (call ensureConnected;
              do d <- this;
              setLimitMin (Float64.mul (limitMin_ d) xLdaNativePerMm))
      else ret DEVICE_OK
  | MM.BeforeGet =>
      do d <- this;
      call set_local (limitMin_ d);
      ret DEVICE_OK
  | _ => ret DEVICE_OK
  end.

(** [WdiAutofocus::LimitMaxGetSet] *)
Definition LimitMaxGetSet (eAct : MM.ActionType) : M spec_float code :=
  match eAct with
  | MM.AfterSet =>
      do newLimit <- get_local;
      do d <- this;
      let update := negb (Float64.eqb (limitMax_ d) newLimit) in
      call assign (set_limitMax_ newLimit);
      if update
      then handleException
             (call ensureConnected;
              do d <- this;
              setLimitMax (Float64.mul (limitMax_ d) xLdaNativePerMm))
      else ret DEVICE_OK
  | MM.BeforeGet =>
      do d <- this;
      call set_local (limitMax_ d);
      ret DEVICE_OK
  | _ => ret DEVICE_OK
  end.

(** [WdiAutofocus::FullFocus] *)
Definition FullFocus {L} : M L code :=
  handleException (call ensureConnected; focusOnce true).

(** [WdiAutofocus::IncrementalFocus]; [focusOnce()] defaults its argument. *)
Definition IncrementalFocus {L} : M L code :=
  handleException (call ensureConnected; focusOnce false).

(** [WdiAutofocus::SetContinuousFocusing] *)
Definition SetContinuousFocusing {L} (state : bool) : M L code :=
  handleException
    (call ensureConnected;
     if state then startFocusLoop else stopFocusLoop).

(** [WdiAutofocus::GetContinuousFocusing]; the frame is [bool& state]. *)
Definition GetContinuousFocusing : M bool code :=
  handleException
    (call ensureConnected;
     do b <- isBusy;
     set_local b).

(** [WdiAutofocus::IsContinuousFocusLocked] *)
Definition IsContinuousFocusLocked {L} : M L bool :=
  do '(r, locked) <-
    with_local false
      (handleException
         (call ensureConnected;
          do status <- getStatus;
          set_local status));
  ret (code_eqb r DEVICE_OK && locked).

(** [positionInt[0]]: the source indexes the answer unchecked; the read is
    issued for one element. *)
Definition index0 (v : list Z) : Z := nth 0 v 0.

(** [WdiAutofocus::ReadWdiPosition]; the frame is [float& position]. *)
Definition ReadWdiPosition : M spec_float code :=
  handleException
    (call ensureConnected;
     do positionInt <- genericRead 41 4 1 0 "t";
     set_local (Float32.div (Float32.of_int (index0 positionInt)) (Float32.of_int 1024))).

(** [WdiAutofocus::GetCurrentFocusScore]; the frame is [double& score].
    The local [float position] is declared without an initialiser:
    [position0] is whatever it holds until [ReadWdiPosition] writes it. *)
Definition GetCurrentFocusScore (position0 : spec_float) : M spec_float code :=
  do '(r, position) <- with_local position0 ReadWdiPosition;
  call set_local (Float64.of_float (Float32.abs position));
  ret r.

(** [WdiAutofocus::GetLastFocusScore] *)
Definition GetLastFocusScore (position0 : spec_float) : M spec_float code :=
  GetCurrentFocusScore position0.

(** [WdiAutofocus::GetOffset]; the frame is [double& offset]. *)
Definition GetOffset : M spec_float code :=
  call set_local (S754_zero false);
  ret DEVICE_OK.

(** [WdiAutofocus::SetOffset] *)
Definition SetOffset {L} (offset : spec_float) : M L code := ret DEVICE_OK.

(** [WdiAutofocus::AutoSetParameters] *)
Definition AutoSetParameters {L} : M L code := ret DEVICE_OK.

(** Modelled from the spec: [CDeviceBase::UpdateStatus] reads every
    property back through its [BeforeGet] action; those branches above
    return [DEVICE_OK] and write no member. *)
Definition UpdateStatus {L} : M L code := ret DEVICE_OK.

(** [WdiAutofocus::Initialize] *)
Definition Initialize {L} : M L code :=
  do d <- this;
  if initialized_ d then ret DEVICE_OK
  else
    do r <-
      handleException
        (call ensureConnected;
         do _ <- getStatus;
         do lo <- settingsGet "motion.tracking.limit.min";
         call assign (set_limitMin_ (Float64.div lo xLdaNativePerMm));
         do hi <- settingsGet "motion.tracking.limit.max";
         assign (set_limitMax_ (Float64.div hi xLdaNativePerMm)));
    if negb (code_eqb r DEVICE_OK) then ret r
    else
      do d <- this;
      call assign (CreateFloatProperty "Limit Min [mm]" (limitMin_ d) false
                     (Some ActLimitMinGetSet) false);
      do d <- this;
      call assign (CreateFloatProperty "Limit Max [mm]" (limitMax_ d) false
                     (Some ActLimitMaxGetSet) false);
      do r <- UpdateStatus;
      if negb (code_eqb r DEVICE_OK) then ret r
      else if code_eqb r DEVICE_OK
           then call assign (set_initialized_ true); ret DEVICE_OK
           else ret r.

(** ** The host's write path *)

(** The call of a registered action on the value a property carries. *)
Definition apply_action {L} (a : Action) (eAct : MM.ActionType) (v : PropValue)
  : M L (code * PropValue) :=
  match a, v with
  | ActPortGetSet, VString s =>
      do '(r, s') <- with_local s (PortGetSet eAct); ret (r, VString s')
  | ActWdiHostGetSet, VString s =>
      do '(r, s') <- with_local s (WdiHostGetSet eAct); ret (r, VString s')
  | ActWdiPortGetSet, VInteger z =>
      do '(r, z') <- with_local z (WdiPortGetSet eAct); ret (r, VInteger z')
  | ActFocusAddressGetSet, VInteger z =>
      do '(r, z') <- with_local z (FocusAddressGetSet eAct); ret (r, VInteger z')
  | ActFocusAxisGetSet, VInteger z =>
      do '(r, z') <- with_local z (FocusAxisGetSet eAct); ret (r, VInteger z')
  | ActObjectiveTurretAddressGetSet, VInteger z =>
      do '(r, z') <- with_local z (ObjectiveTurretAddressGetSet eAct); ret (r, VInteger z')
  | ActLimitMinGetSet, VFloat f =>
      do '(r, f') <- with_local f (LimitMinGetSet eAct); ret (r, VFloat f')
  | ActLimitMaxGetSet, VFloat f =>
      do '(r, f') <- with_local f (LimitMaxGetSet eAct); ret (r, VFloat f')
  | _, _ => ret (DEVICE_ERR ConfigurationError, v)
  end.

(** Modelled from the spec: [CDeviceBase::SetProperty], a property write
    by the host.  A value outside the declared bounds is a
    [ConfigurationError] and the action is not called; otherwise the
    action runs with [AfterSet]. *)
Definition SetProperty {L} (name : string) (value : PropValue) : M L code :=
  do d <- this;
  match properties_ d !! name with
  | None => ret (DEVICE_ERR ConfigurationError)
  | Some p =>
      if within_limits p value
      then match prop_action p with
           | None => ret DEVICE_OK
           | Some a => do '(r, _) <- apply_action a MM.AfterSet value; ret r
           end
      else ret (DEVICE_ERR ConfigurationError)
  end.

(** Running a member function on an object, from an empty trace. *)
Definition start {L} (d : WdiAutofocus) (l : L) : St L := mkSt d [] l.

(** ** Notions the statements use *)

(** The score of a raw reading, as the two functions compute it. *)
Definition score_of (raw : Z) : spec_float :=
  Float64.of_float
    (Float32.abs (Float32.div (Float32.of_int raw) (Float32.of_int 1024))).

(** The addresses [getDevice] was called with, in order. *)
Fixpoint getDevice_calls (tr : list Event) : list Z :=
  match tr with
  | [] => []
  | EvGetDevice a :: tr' => a :: getDevice_calls tr'
  | _ :: tr' => getDevice_calls tr'
  end.

(** Whether every endpoint the configuration names answers. *)
Definition connects (env : Env) (d : WdiAutofocus) : bool :=
  serial_opens env (port_ d)
  && match tcp_opens env (wdiHost_ d) (wdiPort_ d) with Some _ => true | None => false end
  && device_resolves env (focusAddress_ d)
  && axis_resolves env (focusAddress_ d) (focusAxis_ d)
  && (if 0 <? objectiveTurretAddress_ d
      then device_resolves env (objectiveTurretAddress_ d) else true).

(** The calls a complete establishment makes, from the configuration. *)
Definition establishment_calls (d : WdiAutofocus) : list Event :=
  [EvGetConnection (port_ d);
   EvOpenTcp (wdiHost_ d) (wdiPort_ d);
   EvGetDevice (focusAddress_ d);
   EvGetAxis (focusAddress_ d) (focusAxis_ d)]
  ++ (if 0 <? objectiveTurretAddress_ d
      then [EvGetDevice (objectiveTurretAddress_ d)] else []).

(** The object a complete establishment leaves, from the configuration
    and the provider id the endpoint gave. *)
Definition established (d : WdiAutofocus) (id : Z) : WdiAutofocus :=
  set_autofocus_
    (Some (mkAutofocus id (mkAxis (focusAddress_ d) (focusAxis_ d))
             (if 0 <? objectiveTurretAddress_ d
              then Some (objectiveTurretAddress_ d) else None)))
    (set_provider_ (Some (mkProvider (wdiHost_ d) (wdiPort_ d) id))
       (set_connection_ (Some (mkConnection (port_ d))) d)).

(** The provider a failed establishment leaves behind: the one just
    opened, when the serial port and the autofocus endpoint opened and a
    later step failed; the one from before otherwise. *)
Definition provider_after_failure (env : Env) (d : WdiAutofocus)
  : option WdiAutofocusProvider :=
  if serial_opens env (port_ d) then
    match tcp_opens env (wdiHost_ d) (wdiPort_ d) with
    | Some id => Some (mkProvider (wdiHost_ d) (wdiPort_ d) id)
    | None => provider_ d
    end
  else provider_ d.

(** The five fields of the claim, by the action that writes them. *)
Definition connection_relevant (a : Action) : bool :=
  match a with
  | ActWdiHostGetSet | ActWdiPortGetSet | ActFocusAddressGetSet
  | ActFocusAxisGetSet | ActObjectiveTurretAddressGetSet => true
  | _ => false
  end.

(** The member an action writes, written. *)
Definition write_field (a : Action) (v : PropValue) (d : WdiAutofocus) : option WdiAutofocus :=
  match a, v with
  | ActWdiHostGetSet, VString h => Some (set_wdiHost_ h d)
  | ActWdiPortGetSet, VInteger z => Some (set_wdiPort_ z d)
  | ActFocusAddressGetSet, VInteger z => Some (set_focusAddress_ z d)
  | ActFocusAxisGetSet, VInteger z => Some (set_focusAxis_ z d)
  | ActObjectiveTurretAddressGetSet, VInteger z => Some (set_objectiveTurretAddress_ z d)
  | _, _ => None
  end.

(** The bounds a property of the constructed object is registered with. *)
Definition declared_limits (name : string) : option (option (Z * Z)) :=
  option_map prop_limits (properties_ WdiAutofocus_ctor !! name).

(** ** Concrete environments and objects *)

(** An environment in which every endpoint answers. *)
Definition reachable_env : Env :=
  mkEnv (fun _ => true) (fun _ _ => Some 7) (fun _ => true) (fun _ _ => true)
        (Some true) (Some true) (Some [512])
        (fun _ => Some (Float64.of_int 3000000)) true true.

(** The same, except that the status reads fail on the transport. *)
Definition failing_reads_env : Env :=
  mkEnv (fun _ => true) (fun _ _ => Some 7) (fun _ => true) (fun _ _ => true)
        None None None (fun _ => None) true true.

(** The object after construction and a successful [Initialize]. *)
Definition initialized_dev : WdiAutofocus :=
  Eval vm_compute in dev (snd (Initialize reachable_env (start WdiAutofocus_ctor tt))).

(** An environment whose device writes fail. *)
Definition failing_writes_env : Env :=
  mkEnv (fun _ => true) (fun _ _ => Some 7) (fun _ => true) (fun _ _ => true)
        (Some true) (Some true) (Some [512])
        (fun _ => Some (Float64.of_int 3000000)) false false.

(** The same endpoints, with the autofocus host unreachable. *)
Definition unreachable_env : Env :=
  mkEnv (fun _ => true) (fun _ _ => None) (fun _ => true) (fun _ _ => true)
        (Some true) (Some true) (Some [512])
        (fun _ => Some (Float64.of_int 3000000)) true true.

(** The serial port and the autofocus endpoint open, the latter as
    provider 9, and no device address resolves. *)
Definition unresolved_env : Env :=
  mkEnv (fun _ => true) (fun _ _ => Some 9) (fun _ => false) (fun _ _ => true)
        (Some true) (Some true) (Some [512])
        (fun _ => Some (Float64.of_int 3000000)) true true.

(** The endpoints answer and the reading is [raw]. *)
Definition reading_env (raw : Z) : Env :=
  mkEnv (fun _ => true) (fun _ _ => Some 7) (fun _ => true) (fun _ _ => true)
        (Some true) (Some true) (Some [raw])
        (fun _ => Some (Float64.of_int 3000000)) true true.

(** The object after [Initialize] and then [Shutdown]: the adapter is no
    longer initialised, and [Shutdown] has left the connection in place. *)
Definition shut_down_dev : WdiAutofocus :=
  Eval vm_compute in dev (snd (Shutdown reachable_env (start initialized_dev tt))).

(** The object once a write to the host name has dropped the connection
    that [Initialize] made. *)
Definition disconnected_dev : WdiAutofocus :=
  Eval vm_compute in dev (snd (WdiHostGetSet MM.AfterSet reachable_env (start initialized_dev "wdi.local"))).

(** The [double] 2.5 *)
Definition two_and_a_half : spec_float := Float64.div (Float64.of_int 5) (Float64.of_int 2).

(** ** The camera bridge [CPyCamera] *)

Module PyCamera.

(** numpy's [NPY_UINT16] (the type number of [NPY_USHORT]) and the flag
    [NPY_ARRAY_C_CONTIGUOUS] *)
Definition NPY_UINT16 : Z := 4.
Definition NPY_ARRAY_C_CONTIGUOUS : Z := 1.

Definition nullptr : Z := 0.

(** The fields of a [PyArrayObject] the bridge looks at; [data] is the
    address of the pixels. *)
Record PyArrayObject : Set := mkArray {
  nd : Z;
  dimensions : list Z;
  type_num : Z;
  flags : Z;
  data : Z
}.

(** A Python object: a numpy array or something else. *)
Inductive PyObject : Set :=
| PyArray (a : PyArrayObject)
| PyOther.

(** The scripting object behind [object_]: what its [read] method
    answers ([None] when the call raises) and its [width] and [height]
    attributes, read as [long]. *)
Record PyObj : Set := mkPyObj {
  py_read : option PyObject;
  py_width : Z;
  py_height : Z
}.

Record CPyCamera : Set := mkCamera {
  object_ : PyObj;
  lastImage_ : option PyObject
}.

(** The conversion of a [long] to the [unsigned] a function returns. *)
Definition to_unsigned (z : Z) : Z := z mod 2 ^ 32.

(** [CPyCamera::GetImageWidth] *)
Definition GetImageWidth (c : CPyCamera) : Z := to_unsigned (py_width (object_ c)).

(** [CPyCamera::GetImageHeight] *)
Definition GetImageHeight (c : CPyCamera) : Z := to_unsigned (py_height (object_ c)).

(** [CPyCamera::GetBitDepth] *)
Definition GetBitDepth (c : CPyCamera) : Z := 16.

(** [CPyCamera::GetImageBytesPerPixel] *)
Definition GetImageBytesPerPixel (c : CPyCamera) : Z := (GetBitDepth c + 7) / 8.

(** The conversion of an [unsigned] to the [long] a function returns,
    [long] being [long_bits] wide: 64 bits on LP64 platforms, 32 bits with
    MSVC.  A value that [long] cannot hold wraps around modulo
    [2 ^ long_bits] (the rule of C++20, and what the compilers did
    before). *)
Definition to_long (long_bits : Z) (u : Z) : Z :=
  let m := u mod 2 ^ long_bits in
  if m <? 2 ^ (long_bits - 1) then m else m - 2 ^ long_bits.

(** [CPyCamera::GetImageBufferSize]: a product of [unsigned]s, returned
    as a [long]. *)
Definition GetImageBufferSize (long_bits : Z) (c : CPyCamera) : Z :=
  to_long long_bits
    ((GetImageWidth c * GetImageHeight c * GetImageBytesPerPixel c) mod 2 ^ 32).

(** Modelled from the spec: [CheckError] of the bridge's base class
    reports the error of the scripting call just made, the read error:
    [DEVICE_OK] when the call returned, a failure code when it raised. *)
Definition CheckError (called : option PyObject) : code :=
  match called with
  | Some _ => DEVICE_OK
  | None => DEVICE_ERR DeviceCommunicationError
  end.

(** [PyArray_Check] *)
Definition PyArray_Check (o : option PyObject) : bool :=
  match o with
  | Some (PyArray _) => true
  | _ => false
  end.

(** [PyArray_DIM(buffer, i)] *)
Definition PyArray_DIM (a : PyArrayObject) (i : nat) : Z := nth i (dimensions a) 0.

(** [CPyCamera::GetImageBuffer]: the pointer returned, and the object
    with [lastImage_] assigned. *)
Definition GetImageBuffer (c : CPyCamera) : Z * CPyCamera :=
  let c := mkCamera (object_ c) (py_read (object_ c)) in
  if negb (code_eqb (CheckError (lastImage_ c)) DEVICE_OK) then (nullptr, c)
  else if negb (PyArray_Check (lastImage_ c)) then (nullptr, c)
  else
    match lastImage_ c with
    | Some (PyArray buffer) =>
        if negb (nd buffer =? 2)
           || negb (type_num buffer =? NPY_UINT16)
           || (Z.land (flags buffer) NPY_ARRAY_C_CONTIGUOUS =? 0)
        then (nullptr, c)
        else
          let w := GetImageWidth c in
          let h := GetImageHeight c in
          let nh := PyArray_DIM buffer 0 in
          let nw := PyArray_DIM buffer 1 in
          if negb (nw =? w) || negb (nh =? h) then (nullptr, c)
          else (data buffer, c)
    | _ => (nullptr, c)
    end.

(** The checks, as the claim words them. *)
Definition well_formed_image (c : CPyCamera) (a : PyArrayObject) : Prop :=
  nd a = 2
  /\ type_num a = NPY_UINT16
  /\ Z.land (flags a) NPY_ARRAY_C_CONTIGUOUS <> 0
  /\ PyArray_DIM a 0 = GetImageHeight c
  /\ PyArray_DIM a 1 = GetImageWidth c.

End PyCamera.

(** A camera whose [read] answers a 3 by 4 image of 16-bit pixels at
    address 4096, and whose [height] and [width] are 3 and 4. *)
Definition image_3x4 : PyCamera.PyArrayObject := PyCamera.mkArray 2 [3; 4] 4 1 4096.

Definition camera_3x4 : PyCamera.CPyCamera :=
  PyCamera.mkCamera (PyCamera.mkPyObj (Some (PyCamera.PyArray image_3x4)) 4 3) None.

(** ** The device API as a whole *)

(** One call of the host into the adapter, with what the host passes: the
    value a property carries, the content of a variable handed over by
    reference, the content of an uninitialised local. *)
Inductive Call : Type :=
| CallInitialize
| CallShutdown
| CallBusy
| CallAction (a : Action) (eAct : MM.ActionType) (pProp : PropValue)
| CallFullFocus
| CallIncrementalFocus
| CallGetLastFocusScore (position0 score : spec_float)
| CallGetCurrentFocusScore (position0 score : spec_float)
| CallGetOffset (offset : spec_float)
| CallSetOffset (offset : spec_float)
| CallAutoSetParameters
| CallSetContinuousFocusing (state : bool)
| CallGetContinuousFocusing (state : bool)
| CallIsContinuousFocusLocked.

(** The call made, its result dropped. *)
Definition invoke (c : Call) : M unit unit :=
  match c with
  | CallInitialize => call Initialize; ret tt
  | CallShutdown => call Shutdown; ret tt
  | CallBusy => call Busy; ret tt
  | CallAction a eAct pProp => call apply_action a eAct pProp; ret tt
  | CallFullFocus => call FullFocus; ret tt
  | CallIncrementalFocus => call IncrementalFocus; ret tt
  | CallGetLastFocusScore position0 score =>
      call with_local score (GetLastFocusScore position0); ret tt
  | CallGetCurrentFocusScore position0 score =>
      call with_local score (GetCurrentFocusScore position0); ret tt
  | CallGetOffset offset => call with_local offset GetOffset; ret tt
  | CallSetOffset offset => call SetOffset offset; ret tt
  | CallAutoSetParameters => call AutoSetParameters; ret tt
  | CallSetContinuousFocusing state => call SetContinuousFocusing state; ret tt
  | CallGetContinuousFocusing state => call with_local state GetContinuousFocusing; ret tt
  | CallIsContinuousFocusLocked => call IsContinuousFocusLocked; ret tt
  end.

(** A history of calls, each against the answers the outside world gives
    at that moment. *)
Definition run_calls (calls : list (Env * Call)) (s : St unit) : St unit :=
  fold_left (fun s ec => snd (invoke (snd ec) (fst ec) s)) calls s.

(** The members that hold configuration, as opposed to the connection and
    the handles built on it. *)
Definition configuration (d : WdiAutofocus) :=
  (initialized_ d, port_ d, properties_ d, wdiPort_ d, wdiHost_ d,
   focusAddress_ d, focusAxis_ d, objectiveTurretAddress_ d,
   limitMin_ d, limitMax_ d).

(** A connected object has its provider and its autofocus handle, and the
    handle is on that provider. *)
Definition handles_built (d : WdiAutofocus) : Prop :=
  connection_ d <> None ->
  exists p a, provider_ d = Some p /\ autofocus_ d = Some a
              /\ af_providerId a = prov_id p.

(** The properties registered in [d] are registered, unchanged, in [d']. *)
Definition properties_kept (d d' : WdiAutofocus) : Prop :=
  forall name p, properties_ d !! name = Some p -> properties_ d' !! name = Some p.

(** A computation that relates the object before to the object after. *)
Definition keeps {L A} (R : WdiAutofocus -> WdiAutofocus -> Prop) (m : M L A) : Prop :=
  forall env s, R (dev s) (dev (snd (m env s))).

(** A computation that never throws. *)
Definition returns {L A} (m : M L A) : Prop :=
  forall env s, exists a s', m env s = (Ok a, s').

(** The configuration of [d'] is that of [d]. *)
Definition config_kept (d d' : WdiAutofocus) : Prop := configuration d' = configuration d.

(** The calls that write configuration: [Initialize], [Shutdown] and a
    property write. *)
Definition reconfigures (c : Call) : bool :=
  match c with
  | CallInitialize | CallShutdown | CallAction _ MM.AfterSet _ => true
  | _ => false
  end.

(** [handles_built] is not lost from [d] to [d']. *)
Definition handles_stay (d d' : WdiAutofocus) : Prop :=
  handles_built d -> handles_built d'.

(** The table with a property added under [name], unless the name is
    taken. *)
Definition create_in (tbl : gmap string Property) (name : string) (p : Property)
  : gmap string Property :=
  match tbl !! name with
  | Some _ => tbl
  | None => <[name := p]> tbl
  end.

(** The constructor's table with the two limit properties [Initialize]
    registers. *)
Definition initialized_table : gmap string Property :=
  create_in
    (create_in (properties_ WdiAutofocus_ctor) "Limit Min [mm]"
       (mkProperty MM.Float false (Some ActLimitMinGetSet) false None))
    "Limit Max [mm]" (mkProperty MM.Float false (Some ActLimitMaxGetSet) false None).

(** Whether a call returned [DEVICE_OK]. *)
Definition returned_ok (r : Result code) : bool :=
  match r with
  | Ok DEVICE_OK => true
  | _ => false
  end.

(** Whether, in the history [calls] run from [s], some [Initialize] has
    returned [DEVICE_OK]. *)
Fixpoint initialize_succeeded (calls : list (Env * Call)) (s : St unit) : bool :=
  match calls with
  | [] => false
  | (env, c) :: rest =>
      match c with
      | CallInitialize => returned_ok (fst (Initialize env s))
      | _ => false
      end
      || initialize_succeeded rest (snd (invoke c env s))
  end.

(** The table that goes with the history: the one a successful
    [Initialize] leaves once there has been one, and the constructor's, on
    an adapter that is not initialised, as long as there has been none. *)
Definition table_tracks (succeeded : bool) (d : WdiAutofocus) : Prop :=
  if succeeded then properties_ d = initialized_table
  else properties_ d = properties_ WdiAutofocus_ctor /\ initialized_ d = false.

(** From [d] to [d'] the table is the same and [initialized_] was not
    raised. *)
Definition table_kept (d d' : WdiAutofocus) : Prop :=
  properties_ d' = properties_ d /\ (initialized_ d' = true -> initialized_ d = true).

(** The kind of value the action of a property reads and writes. *)
Definition value_fits (a : Action) (v : PropValue) : bool :=
  match a, v with
  | (ActPortGetSet | ActWdiHostGetSet), VString _ => true
  | (ActWdiPortGetSet | ActFocusAddressGetSet | ActFocusAxisGetSet
     | ActObjectiveTurretAddressGetSet), VInteger _ => true
  | (ActLimitMinGetSet | ActLimitMaxGetSet), VFloat _ => true
  | _, _ => false
  end.

(** The member behind a property, as a property value. *)
Definition member_of (a : Action) (d : WdiAutofocus) : PropValue :=
  match a with
  | ActPortGetSet => VString (port_ d)
  | ActWdiHostGetSet => VString (wdiHost_ d)
  | ActWdiPortGetSet => VInteger (wdiPort_ d)
  | ActFocusAddressGetSet => VInteger (focusAddress_ d)
  | ActFocusAxisGetSet => VInteger (focusAxis_ d)
  | ActObjectiveTurretAddressGetSet => VInteger (objectiveTurretAddress_ d)
  | ActLimitMinGetSet => VFloat (limitMin_ d)
  | ActLimitMaxGetSet => VFloat (limitMax_ d)
  end.

(** The connection exists or every endpoint answers: [ensureConnected]
    will succeed. *)
Definition reaches (env : Env) (d : WdiAutofocus) : Prop :=
  connection_ d <> None \/ connects env d = true.

(** The calls [ensureConnected] makes from [d]: none on a live connection,
    the whole establishment otherwise. *)
Definition connection_calls_from (d : WdiAutofocus) : list Event :=
  match connection_ d with
  | Some _ => []
  | None => establishment_calls d
  end.

(** The three reads of [Initialize]. *)
Definition initialize_reads : list Event :=
  [EvGetStatus; EvSettingsGet "motion.tracking.limit.min";
   EvSettingsGet "motion.tracking.limit.max"].

(** The closure [Initialize] hands to [handleException]. *)
Definition initialize_closure {L} : M L unit :=
  call ensureConnected;
  do _ <- getStatus;
  do lo <- settingsGet "motion.tracking.limit.min";
  call assign (set_limitMin_ (Float64.div lo xLdaNativePerMm));
  do hi <- settingsGet "motion.tracking.limit.max";
  assign (set_limitMax_ (Float64.div hi xLdaNativePerMm)).

(** The object [Initialize] leaves when its closure has returned. *)
Definition initialize_done (d : WdiAutofocus) : WdiAutofocus :=
  let d := CreateFloatProperty "Limit Min [mm]" (limitMin_ d) false
             (Some ActLimitMinGetSet) false d in
  let d := CreateFloatProperty "Limit Max [mm]" (limitMax_ d) false
             (Some ActLimitMaxGetSet) false d in
  set_initialized_ true d.

(** The endpoints answer, the status and the lower limit are read, and the
    read of the upper limit fails. *)
Definition upper_limit_fails_env : Env :=
  mkEnv (fun _ => true) (fun _ _ => Some 7) (fun _ => true) (fun _ _ => true)
        (Some true) (Some true) (Some [512])
        (fun name => if String.eqb name "motion.tracking.limit.min"
                     then Some (Float64.of_int 3000000) else None)
        true true.

(** The calls that command the device or write a setting to it. *)
Definition is_command (ev : Event) : bool :=
  match ev with
  | EvSetLimitMin _ | EvSetLimitMax _ | EvFocusOnce _
  | EvStartFocusLoop | EvStopFocusLoop => true
  | _ => false
  end.

(** The commands in a trace, in order. *)
Definition commands (tr : list Event) : list Event := List.filter is_command tr.

(** The calls that open a connection and resolve the handles on it. *)
Definition is_connection_call (ev : Event) : bool :=
  match ev with
  | EvGetConnection _ | EvOpenTcp _ _ | EvGetDevice _ | EvGetAxis _ _ => true
  | _ => false
  end.

(** The connection calls in a trace, in order. *)
Definition connection_calls (tr : list Event) : list Event :=
  List.filter is_connection_call tr.

(** The four focus commands of the API, each with the device call it
    stands for. *)
Definition focus_commands : list (M unit code * Event) :=
  [(FullFocus, EvFocusOnce true);
   (IncrementalFocus, EvFocusOnce false);
   (SetContinuousFocusing true, EvStartFocusLoop);
   (SetContinuousFocusing false, EvStopFocusLoop)].

(** Every endpoint answers, the focus commands are accepted and the axis
    is idle. *)
Definition idle_axis_env : Env :=
  mkEnv (fun _ => true) (fun _ _ => Some 7) (fun _ => true) (fun _ _ => true)
        (Some false) (Some true) (Some [512]) (fun _ => None) true true.

(** The calls after which a connected object is disconnected: the writes
    of a property other than the limits, on an initialised object. *)
Definition drops_connection (c : Call) (d : WdiAutofocus) : bool :=
  match c with
  | CallAction a MM.AfterSet v =>
      initialized_ d && value_fits a v
      && match a with
         | ActLimitMinGetSet | ActLimitMaxGetSet => false
         | _ => true
         end
  | _ => false
  end.

(** * Theorems *)

Example of_int_1024 : Float32.of_int 1024 = S754_finite false 8388608 (-13).
Proof. reflexivity. Qed.

Example of_int_big : Float32.of_int 16777217 = S754_finite false 8388608 1.
Proof. reflexivity. Qed.

(** *** Tactics *)

Ltac unfold_cpp :=
  unfold handleException, try_catch, with_local, bind, ret, throw, this, assign,
    ask, emit, get_local, set_local in *.

Ltac break_match :=
  match goal with
  | |- context [match ?x with _ => _ end] => destruct x eqn:?
  | H : context [match ?x with _ => _ end] |- _ => destruct x eqn:?
  end.

Ltac inv_pairs :=
  repeat match goal with
         | H : (_, _) = (_, _) |- _ => inversion H; subst; clear H
         end.

(** Runs a member function symbolically, one case per answer of the
    environment. *)
Ltac run_cpp :=
  unfold_cpp; simpl in *;
  repeat (break_match; simpl in *; try congruence; inv_pairs; simpl in *);
  auto.

(** *** The monad and the [ZaberBase] helpers *)

(** [handleException] never throws: it returns [DEVICE_OK] exactly when
    the closure returns, and the code of the failure otherwise. *)
Lemma handleException_spec {L} (wrapped : M L unit) env s :
  handleException wrapped env s =
    (Ok match fst (wrapped env s) with
        | Ok _ => DEVICE_OK
        | Throw e => DEVICE_ERR e
        end,
     snd (wrapped env s)).
Proof.
  unfold handleException, try_catch, bind, ret.
  destruct (wrapped env s) as [[u|e] s']; reflexivity.
Qed.

(** The outcomes of [onNewConnection]. *)
Lemma onNewConnection_locals {L} env (s : St L) :
  locals (snd (onNewConnection env s)) = locals s.
Proof.
  unfold onNewConnection, ZaberBase_onNewConnection, openTcp, getDevice, getAxis.
  run_cpp.
Qed.

Lemma ensureConnected_connected {L} env (s : St L) c :
  connection_ (dev s) = Some c -> ensureConnected env s = (Ok tt, s).
Proof. intros H. unfold ensureConnected. unfold_cpp. now rewrite H. Qed.

Lemma ensureConnected_locals {L} env (s : St L) :
  locals (snd (ensureConnected env s)) = locals s.
Proof.
  unfold ensureConnected, getConnection.
  pose proof (@onNewConnection_locals L env) as Hn.
  unfold_cpp. simpl.
  destruct (connection_ (dev s)); [reflexivity|].
  destruct (serial_opens env (port_ (dev s))); [|reflexivity].
  match goal with |- context [onNewConnection env ?s0] =>
    specialize (Hn s0); destruct (onNewConnection env s0) as [[u|e] s1] end;
    simpl in *; auto.
Qed.

Lemma onNewConnection_Throw {L} env (s : St L) e :
  fst (onNewConnection env s) = Throw e -> e = ConnectionError.
Proof.
  unfold onNewConnection, ZaberBase_onNewConnection, openTcp, getDevice, getAxis.
  run_cpp.
Qed.

(** A failed [ensureConnected] fails with [ConnectionError] and leaves
    the state Disconnected. *)
Lemma ensureConnected_Throw {L} env (s : St L) e :
  fst (ensureConnected env s) = Throw e ->
  e = ConnectionError /\ connection_ (dev (snd (ensureConnected env s))) = None.
Proof.
  unfold ensureConnected, getConnection.
  pose proof (@onNewConnection_Throw L env) as Hn.
  unfold_cpp. simpl.
  destruct (connection_ (dev s)) eqn:Hc; [discriminate|].
  destruct (serial_opens env (port_ (dev s))); simpl.
  - match goal with |- context [onNewConnection env ?s0] =>
      specialize (Hn s0); destruct (onNewConnection env s0) as [[u|e'] s1] end;
      simpl in *; [discriminate|].
    intros [= <-]. split; [now apply Hn | reflexivity].
  - intros [= <-]. auto.
Qed.

Lemma onNewConnection_connection {L} env (s : St L) :
  connection_ (dev (snd (onNewConnection env s))) = connection_ (dev s).
Proof.
  unfold onNewConnection, ZaberBase_onNewConnection, openTcp, getDevice, getAxis.
  run_cpp.
Qed.

Lemma ensureConnected_Ok {L} env (s : St L) :
  fst (ensureConnected env s) = Ok tt ->
  connection_ (dev (snd (ensureConnected env s))) <> None.
Proof.
  unfold ensureConnected, getConnection.
  pose proof (@onNewConnection_connection L env) as Hn.
  unfold_cpp. simpl.
  destruct (connection_ (dev s)) eqn:Hc; simpl; [congruence|].
  destruct (serial_opens env (port_ (dev s))); simpl; [|discriminate].
  match goal with |- context [onNewConnection env ?s0] =>
    specialize (Hn s0); destruct (onNewConnection env s0) as [[u|e'] s1] end;
    simpl in *; [|discriminate].
  intros _. rewrite Hn. discriminate.
Qed.

(** *** The status queries *)

(** What the closure of a status query does when its read fails: it
    throws, and the variable it would have written keeps its value. *)
Lemma failed_read_closure (read : M bool bool) env (s : St bool) :
  (forall s0, read env s0 = (Throw DeviceCommunicationError,
                             mkSt (dev s0) (trace s0 ++ [EvIsBusy]) (locals s0))
              \/ read env s0 = (Throw DeviceCommunicationError,
                                mkSt (dev s0) (trace s0 ++ [EvGetStatus]) (locals s0))) ->
  let w := (call ensureConnected; do b <- read; set_local b) in
  (exists e, fst (w env s) = Throw e)
  /\ locals (snd (w env s)) = locals s
  /\ (connection_ (dev s) <> None -> fst (w env s) = Throw DeviceCommunicationError).
Proof.
  intros Hread w. unfold w, bind.
  pose proof (ensureConnected_locals env s) as Hl.
  destruct (ensureConnected env s) as [[[]|e] s1] eqn:He; simpl in Hl.
  - destruct (Hread s1) as [-> | ->]; simpl; eauto.
  - simpl. split; [eauto | split; [assumption |]].
    intros Hc. destruct (connection_ (dev s)) as [c|] eqn:Hconn; [|congruence].
    rewrite (ensureConnected_connected env s c Hconn) in He. discriminate.
Qed.

Lemma isBusy_fails {L} env (s0 : St L) :
  axis_busy env = None ->
  isBusy env s0 = (Throw DeviceCommunicationError,
                   mkSt (dev s0) (trace s0 ++ [EvIsBusy]) (locals s0)).
Proof. intros H. unfold isBusy. unfold_cpp. simpl. now rewrite H. Qed.

Lemma getStatus_fails {L} env (s0 : St L) :
  status_inFocus env = None ->
  getStatus env s0 = (Throw DeviceCommunicationError,
                      mkSt (dev s0) (trace s0 ++ [EvGetStatus]) (locals s0)).
Proof. intros H. unfold getStatus. unfold_cpp. simpl. now rewrite H. Qed.

Lemma Busy_failed_read {L} env (s : St L) :
  axis_busy env = None -> fst (Busy env s) = Ok false.
Proof.
  intros H. unfold Busy. unfold bind at 1. unfold with_local.
  rewrite handleException_spec.
  set (s0 := mkSt (dev s) (trace s) false).
  destruct (failed_read_closure isBusy env s0) as [[e He] [Hl _]].
  { intros s1. left. now apply isBusy_fails. }
  cbv zeta in He, Hl.
  match type of He with fst ?c = _ => destruct c as [r s1] end.
  simpl in He. subst r. reflexivity.
Qed.

Lemma IsContinuousFocusLocked_failed_read {L} env (s : St L) :
  status_inFocus env = None -> fst (IsContinuousFocusLocked env s) = Ok false.
Proof.
  intros H. unfold IsContinuousFocusLocked. unfold bind at 1. unfold with_local.
  rewrite handleException_spec.
  set (s0 := mkSt (dev s) (trace s) false).
  destruct (failed_read_closure getStatus env s0) as [[e He] [Hl _]].
  { intros s1. right. now apply getStatus_fails. }
  cbv zeta in He, Hl.
  match type of He with fst ?c = _ => destruct c as [r s1] end.
  simpl in He. subst r. reflexivity.
Qed.

Lemma GetContinuousFocusing_failed_read env (s : St bool) :
  axis_busy env = None ->
  (exists e, fst (GetContinuousFocusing env s) = Ok (DEVICE_ERR e))
  /\ locals (snd (GetContinuousFocusing env s)) = locals s
  /\ (connection_ (dev s) <> None ->
      fst (GetContinuousFocusing env s) = Ok (DEVICE_ERR DeviceCommunicationError)).
Proof.
  intros H. unfold GetContinuousFocusing. rewrite handleException_spec.
  destruct (failed_read_closure isBusy env s) as [[e He] [Hl Hc]].
  { intros s1. left. now apply isBusy_fails. }
  cbv zeta in He, Hl, Hc. simpl. rewrite He. split; [eauto | split; [assumption|]].
  intros Hn. specialize (Hc Hn). rewrite He in Hc. injection Hc as ->. reflexivity.
Qed.

(** C1, as amended: when the transport read fails, [Busy] (isBusy) and
    [IsContinuousFocusLocked] (isFocusLocked) return [false] and do not
    throw; [GetContinuousFocusing] (isContinuousFocusActive) does not throw
    either, but it hands the failure to its caller as the return code of
    [handleException] and leaves its [state] argument as the caller passed
    it. *)
Theorem C1_status_queries_on_failed_read :
  forall (env : Env) (s : St unit) (sb : St bool),
    (axis_busy env = None -> fst (Busy env s) = Ok false)
    /\ (status_inFocus env = None -> fst (IsContinuousFocusLocked env s) = Ok false)
    /\ (axis_busy env = None ->
        (exists e, fst (GetContinuousFocusing env sb) = Ok (DEVICE_ERR e))
        /\ locals (snd (GetContinuousFocusing env sb)) = locals sb
        /\ (connection_ (dev sb) <> None ->
            fst (GetContinuousFocusing env sb) = Ok (DEVICE_ERR DeviceCommunicationError))).
Proof.
  intros env s sb. split; [|split].
  - apply Busy_failed_read.
  - apply IsContinuousFocusLocked_failed_read.
  - apply GetContinuousFocusing_failed_read.
Qed.

Lemma C1_status_queries_witness :
  fst (Busy failing_reads_env (start initialized_dev tt)) = Ok false
  /\ fst (IsContinuousFocusLocked failing_reads_env (start initialized_dev tt)) = Ok false
  /\ fst (GetContinuousFocusing failing_reads_env (start initialized_dev true))
     = Ok (DEVICE_ERR DeviceCommunicationError).
Proof.
  destruct (C1_status_queries_on_failed_read failing_reads_env
              (start initialized_dev tt) (start initialized_dev true))
    as [Hb [Hl [_ [_ Hg]]]]; try reflexivity.
  split; [apply Hb; reflexivity | split; [apply Hl; reflexivity |]].
  apply Hg. vm_compute. discriminate.
Defined.

(** C1, as stated, fails for [GetContinuousFocusing]: the read fails on
    the transport, and the caller neither gets [false] nor is spared the
    error. *)
Lemma C1_counterexample :
  axis_busy failing_reads_env = None
  /\ fst (GetContinuousFocusing failing_reads_env (start initialized_dev true))
     <> Ok DEVICE_OK
  /\ locals (snd (GetContinuousFocusing failing_reads_env (start initialized_dev true)))
     <> false.
Proof. vm_compute. repeat split; discriminate. Qed.

(** *** The soft limits *)

Lemma LimitMinGetSet_AfterSet_equal env (s : St spec_float) :
  Float64.eqb (limitMin_ (dev s)) (locals s) = true ->
  LimitMinGetSet MM.AfterSet env s
  = (Ok DEVICE_OK, mkSt (set_limitMin_ (locals s) (dev s)) (trace s) (locals s)).
Proof. intros H. unfold LimitMinGetSet. unfold_cpp. simpl. now rewrite H. Qed.

Lemma LimitMaxGetSet_AfterSet_equal env (s : St spec_float) :
  Float64.eqb (limitMax_ (dev s)) (locals s) = true ->
  LimitMaxGetSet MM.AfterSet env s
  = (Ok DEVICE_OK, mkSt (set_limitMax_ (locals s) (dev s)) (trace s) (locals s)).
Proof. intros H. unfold LimitMaxGetSet. unfold_cpp. simpl. now rewrite H. Qed.

Lemma LimitMinGetSet_AfterSet_connected env (s : St spec_float) c :
  connection_ (dev s) = Some c ->
  Float64.eqb (limitMin_ (dev s)) (locals s) = false ->
  LimitMinGetSet MM.AfterSet env s
  = (Ok (if limit_write_ok env then DEVICE_OK else DEVICE_ERR DeviceCommunicationError),
     mkSt (set_limitMin_ (locals s) (dev s))
          (trace s ++ [EvSetLimitMin (Float64.mul (locals s) xLdaNativePerMm)])
          (locals s)).
Proof.
  intros Hc H. unfold LimitMinGetSet, setLimitMin, device_write, ensureConnected.
  unfold_cpp. simpl. rewrite H. simpl. rewrite Hc. simpl.
  destruct (limit_write_ok env); reflexivity.
Qed.

Lemma LimitMaxGetSet_AfterSet_connected env (s : St spec_float) c :
  connection_ (dev s) = Some c ->
  Float64.eqb (limitMax_ (dev s)) (locals s) = false ->
  LimitMaxGetSet MM.AfterSet env s
  = (Ok (if limit_write_ok env then DEVICE_OK else DEVICE_ERR DeviceCommunicationError),
     mkSt (set_limitMax_ (locals s) (dev s))
          (trace s ++ [EvSetLimitMax (Float64.mul (locals s) xLdaNativePerMm)])
          (locals s)).
Proof.
  intros Hc H. unfold LimitMaxGetSet, setLimitMax, device_write, ensureConnected.
  unfold_cpp. simpl. rewrite H. simpl. rewrite Hc. simpl.
  destruct (limit_write_ok env); reflexivity.
Qed.

(** The conversion factor is the [double] 1000000. *)
Lemma xLdaNativePerMm_value : (SF2Q xLdaNativePerMm == inject_Z 1000000)%Q.
Proof. reflexivity. Qed.

(** The [double]s 2.5 and 2500000.0 *)
Example scaled_2_5 :
  Float64.mul (Float64.div (Float64.of_int 5) (Float64.of_int 2)) xLdaNativePerMm
  = Float64.of_int 2500000.
Proof. vm_compute. reflexivity. Qed.

(** C2: while connected, setting [limitMin] (and likewise [limitMax]) to a
    value that differs from the stored one stores the requested value,
    then issues one device write of that value times [xLdaNativePerMm]
    (1000000); if the write fails the handler returns
    [DeviceCommunicationError], and the member holds the requested value
    all the same. *)
Theorem C2_limit_write_then_push :
  forall (env : Env) (s : St spec_float) (c : Connection) (newLimit : spec_float),
    connection_ (dev s) = Some c ->
    locals s = newLimit ->
    (Float64.eqb (limitMin_ (dev s)) newLimit = false ->
     let r := LimitMinGetSet MM.AfterSet env s in
     limitMin_ (dev (snd r)) = newLimit
     /\ trace (snd r) = trace s ++ [EvSetLimitMin (Float64.mul newLimit xLdaNativePerMm)]
     /\ (limit_write_ok env = true -> fst r = Ok DEVICE_OK)
     /\ (limit_write_ok env = false -> fst r = Ok (DEVICE_ERR DeviceCommunicationError)))
    /\
    (Float64.eqb (limitMax_ (dev s)) newLimit = false ->
     let r := LimitMaxGetSet MM.AfterSet env s in
     limitMax_ (dev (snd r)) = newLimit
     /\ trace (snd r) = trace s ++ [EvSetLimitMax (Float64.mul newLimit xLdaNativePerMm)]
     /\ (limit_write_ok env = true -> fst r = Ok DEVICE_OK)
     /\ (limit_write_ok env = false -> fst r = Ok (DEVICE_ERR DeviceCommunicationError)))
    /\ (SF2Q xLdaNativePerMm == inject_Z 1000000)%Q.
Proof.
  intros env s c newLimit Hc <-. split; [|split].
  - intros H. cbv zeta. rewrite (LimitMinGetSet_AfterSet_connected env s c Hc H). simpl.
    repeat split; intros ->; reflexivity.
  - intros H. cbv zeta. rewrite (LimitMaxGetSet_AfterSet_connected env s c Hc H). simpl.
    repeat split; intros ->; reflexivity.
  - apply xLdaNativePerMm_value.
Qed.

Lemma C2_limit_write_witness :
  let r := LimitMinGetSet MM.AfterSet failing_writes_env (start initialized_dev two_and_a_half) in
  limitMin_ (dev (snd r)) = two_and_a_half
  /\ trace (snd r) = [EvSetLimitMin (Float64.of_int 2500000)]
  /\ fst r = Ok (DEVICE_ERR DeviceCommunicationError).
Proof.
  destruct (C2_limit_write_then_push failing_writes_env
              (start initialized_dev two_and_a_half) (mkConnection "Undefined")
              two_and_a_half eq_refl eq_refl) as [Hmin _].
  destruct (Hmin eq_refl) as [Hv [Ht [_ Hf]]].
  cbv zeta. split; [exact Hv | split; [|exact (Hf eq_refl)]].
  rewrite Ht. vm_compute. reflexivity.
Defined.

(** C9: setting [limitMin] (or [limitMax]) to a value equal, by the [==]
    of [double], to the stored one stores it, returns [DEVICE_OK], and
    reaches neither the connection nor the device: the trace and every
    other member are as before.  A call that does extend the trace was
    given a value that differs from the stored one. *)
Theorem C9_equal_limit_is_no_push :
  forall (env : Env) (s : St spec_float),
    (Float64.eqb (limitMin_ (dev s)) (locals s) = true ->
     let r := LimitMinGetSet MM.AfterSet env s in
     fst r = Ok DEVICE_OK
     /\ snd r = mkSt (set_limitMin_ (locals s) (dev s)) (trace s) (locals s)
     /\ trace (snd r) = trace s
     /\ connection_ (dev (snd r)) = connection_ (dev s)
     /\ Float64.eqb (limitMin_ (dev s)) (limitMin_ (dev (snd r))) = true)
    /\
    (Float64.eqb (limitMax_ (dev s)) (locals s) = true ->
     let r := LimitMaxGetSet MM.AfterSet env s in
     fst r = Ok DEVICE_OK
     /\ snd r = mkSt (set_limitMax_ (locals s) (dev s)) (trace s) (locals s)
     /\ trace (snd r) = trace s
     /\ connection_ (dev (snd r)) = connection_ (dev s)
     /\ Float64.eqb (limitMax_ (dev s)) (limitMax_ (dev (snd r))) = true)
    /\
    (trace (snd (LimitMinGetSet MM.AfterSet env s)) <> trace s ->
     Float64.eqb (limitMin_ (dev s)) (locals s) = false)
    /\
    (trace (snd (LimitMaxGetSet MM.AfterSet env s)) <> trace s ->
     Float64.eqb (limitMax_ (dev s)) (locals s) = false).
Proof.
  intros env s. repeat apply conj.
  - intros H. cbv zeta. rewrite (LimitMinGetSet_AfterSet_equal env s H). simpl. auto.
  - intros H. cbv zeta. rewrite (LimitMaxGetSet_AfterSet_equal env s H). simpl. auto.
  - intros Ht. destruct (Float64.eqb (limitMin_ (dev s)) (locals s)) eqn:H; [|reflexivity].
    rewrite (LimitMinGetSet_AfterSet_equal env s H) in Ht. now destruct Ht.
  - intros Ht. destruct (Float64.eqb (limitMax_ (dev s)) (locals s)) eqn:H; [|reflexivity].
    rewrite (LimitMaxGetSet_AfterSet_equal env s H) in Ht. now destruct Ht.
Qed.

(** [Initialize] read 3000000 native units for both limits: 3.0 mm. *)
Lemma C9_equal_limit_witness :
  Float64.eqb (limitMin_ (dev (start initialized_dev (Float64.of_int 3))))
              (locals (start initialized_dev (Float64.of_int 3))) = true
  /\ fst (LimitMinGetSet MM.AfterSet failing_writes_env
            (start initialized_dev (Float64.of_int 3))) = Ok DEVICE_OK
  /\ trace (snd (LimitMinGetSet MM.AfterSet failing_writes_env
                   (start initialized_dev (Float64.of_int 3))))
     = trace (start initialized_dev (Float64.of_int 3)).
Proof.
  assert (He : Float64.eqb (limitMin_ (dev (start initialized_dev (Float64.of_int 3))))
                           (locals (start initialized_dev (Float64.of_int 3))) = true)
    by (vm_compute; reflexivity).
  pose proof (proj1 (C9_equal_limit_is_no_push failing_writes_env
                       (start initialized_dev (Float64.of_int 3))) He) as H.
  cbv zeta in H. destruct H as [Hr [_ [Ht _]]].
  split; [exact He | split; [exact Hr | exact Ht]].
Defined.

Lemma LimitMinGetSet_keeps_connection eAct env (s : St spec_float) c :
  connection_ (dev s) = Some c ->
  connection_ (dev (snd (LimitMinGetSet eAct env s))) = Some c.
Proof.
  intros Hc. destruct eAct; try exact Hc.
  destruct (Float64.eqb (limitMin_ (dev s)) (locals s)) eqn:H.
  - now rewrite (LimitMinGetSet_AfterSet_equal env s H).
  - now rewrite (LimitMinGetSet_AfterSet_connected env s c Hc H).
Qed.

Lemma LimitMaxGetSet_keeps_connection eAct env (s : St spec_float) c :
  connection_ (dev s) = Some c ->
  connection_ (dev (snd (LimitMaxGetSet eAct env s))) = Some c.
Proof.
  intros Hc. destruct eAct; try exact Hc.
  destruct (Float64.eqb (limitMax_ (dev s)) (locals s)) eqn:H.
  - now rewrite (LimitMaxGetSet_AfterSet_equal env s H).
  - now rewrite (LimitMaxGetSet_AfterSet_connected env s c Hc H).
Qed.

(** C7: setting [limitMin] or [limitMax] never invalidates the connection:
    whatever the action, the value and the answers of the transport, a
    live connection is the same live connection afterwards. *)
Theorem C7_limits_keep_live_connection :
  forall (eAct : MM.ActionType) (env : Env) (s : St spec_float) (c : Connection),
    connection_ (dev s) = Some c ->
    connection_ (dev (snd (LimitMinGetSet eAct env s))) = Some c
    /\ connection_ (dev (snd (LimitMaxGetSet eAct env s))) = Some c.
Proof.
  intros eAct env s c Hc. split.
  - now apply LimitMinGetSet_keeps_connection.
  - now apply LimitMaxGetSet_keeps_connection.
Qed.

Lemma C7_limits_keep_live_connection_witness :
  connection_ (dev (snd (LimitMinGetSet MM.AfterSet failing_writes_env
                           (start initialized_dev two_and_a_half))))
  = Some (mkConnection "Undefined")
  /\ connection_ (dev (snd (LimitMaxGetSet MM.AfterSet failing_writes_env
                              (start initialized_dev two_and_a_half))))
     = Some (mkConnection "Undefined").
Proof.
  apply (C7_limits_keep_live_connection MM.AfterSet failing_writes_env
           (start initialized_dev two_and_a_half) (mkConnection "Undefined")).
  reflexivity.
Defined.

(** *** Connection establishment *)

(** What [onNewConnection] does on a live serial connection, case by case. *)
Lemma onNewConnection_run {L} env (s : St L) c :
  connection_ (dev s) = Some c ->
  let d := dev s in
  let opened id := set_provider_ (Some (mkProvider (wdiHost_ d) (wdiPort_ d) id)) d in
  let e1 := [EvOpenTcp (wdiHost_ d) (wdiPort_ d)] in
  let e2 := e1 ++ [EvGetDevice (focusAddress_ d)] in
  let e3 := e2 ++ [EvGetAxis (focusAddress_ d) (focusAxis_ d)] in
  let e4 := e3 ++ [EvGetDevice (objectiveTurretAddress_ d)] in
  let built id turret :=
    set_autofocus_
      (Some (mkAutofocus id (mkAxis (focusAddress_ d) (focusAxis_ d)) turret)) (opened id) in
  onNewConnection env s =
    match tcp_opens env (wdiHost_ d) (wdiPort_ d) with
    | None => (Throw ConnectionError, mkSt d (trace s ++ e1) (locals s))
    | Some id =>
        if device_resolves env (focusAddress_ d) then
          if axis_resolves env (focusAddress_ d) (focusAxis_ d) then
            if 0 <? objectiveTurretAddress_ d then
              if device_resolves env (objectiveTurretAddress_ d) then
                (Ok tt, mkSt (built id (Some (objectiveTurretAddress_ d)))
                          (trace s ++ e4) (locals s))
              else (Throw ConnectionError, mkSt (opened id) (trace s ++ e4) (locals s))
            else (Ok tt, mkSt (built id None) (trace s ++ e3) (locals s))
          else (Throw ConnectionError, mkSt (opened id) (trace s ++ e3) (locals s))
        else (Throw ConnectionError, mkSt (opened id) (trace s ++ e2) (locals s))
    end.
Proof.
  intros Hc. cbv zeta.
  unfold onNewConnection, ZaberBase_onNewConnection, openTcp, getDevice, getAxis.
  unfold_cpp. simpl.
  destruct (tcp_opens env (wdiHost_ (dev s)) (wdiPort_ (dev s))) as [id|]; simpl;
    [|reflexivity].
  rewrite Hc. simpl.
  destruct (device_resolves env (focusAddress_ (dev s))); simpl;
    [|now rewrite <- !app_assoc].
  destruct (axis_resolves env (focusAddress_ (dev s)) (focusAxis_ (dev s))); simpl;
    [|now rewrite <- !app_assoc].
  destruct (0 <? objectiveTurretAddress_ (dev s)); simpl;
    [|now rewrite <- !app_assoc].
  destruct (device_resolves env (objectiveTurretAddress_ (dev s))); simpl;
    now rewrite <- !app_assoc.
Qed.

(** C6: during [onNewConnection], once the provider is open and the focus
    axis resolved, the turret device is resolved if and only if
    [objectiveTurretAddress_] is strictly positive: the calls made are the
    three of the focus axis, followed by [getDevice] on the turret address
    exactly in that case.  With an address of 0, -1 or less no run, failed
    or not, resolves anything but the focus device.  A run that succeeds
    builds the handle with the turret when the address is positive and
    without one otherwise. *)
Theorem C6_turret_resolved_iff_positive :
  forall (env : Env) (s : St unit) (c : Connection) (id : Z),
    connection_ (dev s) = Some c ->
    let d := dev s in
    let r := onNewConnection env s in
    (tcp_opens env (wdiHost_ d) (wdiPort_ d) = Some id ->
     device_resolves env (focusAddress_ d) = true ->
     axis_resolves env (focusAddress_ d) (focusAxis_ d) = true ->
     trace (snd r)
     = trace s
       ++ [EvOpenTcp (wdiHost_ d) (wdiPort_ d);
           EvGetDevice (focusAddress_ d);
           EvGetAxis (focusAddress_ d) (focusAxis_ d)]
       ++ (if 0 <? objectiveTurretAddress_ d
           then [EvGetDevice (objectiveTurretAddress_ d)] else []))
    /\ (objectiveTurretAddress_ d <= 0 ->
        exists new, trace (snd r) = trace s ++ new
                    /\ (getDevice_calls new = []
                        \/ getDevice_calls new = [focusAddress_ d]))
    /\ (fst r = Ok tt ->
        option_map af_objectiveTurret (autofocus_ (dev (snd r)))
        = Some (if 0 <? objectiveTurretAddress_ d
                then Some (objectiveTurretAddress_ d) else None)).
Proof.
  intros env s c id Hc d r. unfold r.
  rewrite (onNewConnection_run env s c Hc). fold d.
  split; [|split].
  - intros -> -> ->.
    destruct (0 <? objectiveTurretAddress_ d).
    + destruct (device_resolves env (objectiveTurretAddress_ d)); reflexivity.
    + reflexivity.
  - intros Ht. apply Z.ltb_ge in Ht. rewrite Ht.
    destruct (tcp_opens env (wdiHost_ d) (wdiPort_ d));
      [|eexists; split; [reflexivity | now left]].
    destruct (device_resolves env (focusAddress_ d));
      [|eexists; split; [reflexivity | now right]].
    destruct (axis_resolves env (focusAddress_ d) (focusAxis_ d));
      eexists; (split; [reflexivity | now right]).
  - destruct (tcp_opens env (wdiHost_ d) (wdiPort_ d)); [|discriminate].
    destruct (device_resolves env (focusAddress_ d)); [|discriminate].
    destruct (axis_resolves env (focusAddress_ d) (focusAxis_ d)); [|discriminate].
    destruct (0 <? objectiveTurretAddress_ d); [|reflexivity].
    destruct (device_resolves env (objectiveTurretAddress_ d)); [reflexivity|discriminate].
Qed.

Lemma C6_turret_witness :
  trace (snd (onNewConnection reachable_env
                (start (set_connection_ (Some (mkConnection "Undefined"))
                          (set_objectiveTurretAddress_ 5 WdiAutofocus_ctor)) tt)))
  = [EvOpenTcp "Undefined" 27; EvGetDevice 1; EvGetAxis 1 1; EvGetDevice 5].
Proof.
  pose proof (C6_turret_resolved_iff_positive reachable_env
                (start (set_connection_ (Some (mkConnection "Undefined"))
                          (set_objectiveTurretAddress_ 5 WdiAutofocus_ctor)) tt)
                (mkConnection "Undefined") 7 eq_refl) as T.
  cbv zeta in T. destruct T as [T _].
  rewrite T by (vm_compute; reflexivity). vm_compute. reflexivity.
Defined.

Lemma ensureConnected_establishes {L} env (s : St L) id :
  connection_ (dev s) = None ->
  tcp_opens env (wdiHost_ (dev s)) (wdiPort_ (dev s)) = Some id ->
  connects env (dev s) = true ->
  ensureConnected env s
  = (Ok tt, mkSt (established (dev s) id)
                 (trace s ++ establishment_calls (dev s)) (locals s)).
Proof.
  intros Hc Ht Hall. unfold connects in Hall. rewrite Ht in Hall.
  repeat (apply andb_prop in Hall; destruct Hall as [Hall ?]).
  unfold ensureConnected, getConnection. unfold_cpp. simpl.
  rewrite Hc, Hall. simpl.
  erewrite onNewConnection_run by reflexivity. simpl.
  rewrite Ht. 
  repeat match goal with H : _ = true |- _ => rewrite H; clear H end.
  unfold established, establishment_calls.
  destruct (0 <? objectiveTurretAddress_ (dev s)); simpl.
  - match goal with H : _ = true |- _ => rewrite H end. simpl.
    now rewrite <- !app_assoc.
  - now rewrite <- !app_assoc.
Qed.

(** A failed establishment has changed no member but, at most, [provider_]
    (when the provider opened and a later step failed); the trace aside,
    nothing else records the attempt. *)
Lemma ensureConnected_Throw_state {L} env (s : St L) e :
  fst (ensureConnected env s) = Throw e ->
  connection_ (dev s) = None
  /\ exists p tr, snd (ensureConnected env s)
                  = mkSt (set_provider_ p (dev s)) tr (locals s).
Proof.
  unfold ensureConnected, getConnection. unfold_cpp. simpl.
  destruct (connection_ (dev s)) eqn:Hc; [discriminate|].
  intros H. split; [reflexivity|].
  destruct (serial_opens env (port_ (dev s))); simpl in *.
  - erewrite onNewConnection_run in * by reflexivity. simpl in *.
    repeat (break_match; simpl in *; try discriminate; inv_pairs; simpl in * );
      eexists; eexists; unfold set_provider_, set_connection_; simpl;
      rewrite ?Hc; reflexivity.
  - assert (Hid : set_provider_ (provider_ (dev s)) (dev s) = dev s)
      by (destruct (dev s); reflexivity).
    exists (provider_ (dev s)). eexists. rewrite Hid. reflexivity.
Qed.

Lemma connects_false_Throw {L} env (s : St L) :
  connection_ (dev s) = None ->
  connects env (dev s) = false ->
  fst (ensureConnected env s) = Throw ConnectionError.
Proof.
  intros Hc Hall. unfold connects in Hall.
  unfold ensureConnected, getConnection. unfold_cpp. simpl. rewrite Hc.
  destruct (serial_opens env (port_ (dev s))); simpl in *; [|reflexivity].
  erewrite onNewConnection_run by reflexivity. simpl.
  repeat (break_match; simpl in *; try discriminate; inv_pairs; try reflexivity).
Qed.

(** The provider and the object a failed establishment leave, exactly. *)
Lemma ensureConnected_Throw_provider_field {L} env (s : St L) e :
  fst (ensureConnected env s) = Throw e ->
  provider_ (dev (snd (ensureConnected env s))) = provider_after_failure env (dev s).
Proof.
  unfold ensureConnected, getConnection, provider_after_failure. unfold_cpp. simpl.
  destruct (connection_ (dev s)) eqn:Hc; [discriminate|].
  destruct (serial_opens env (port_ (dev s))); simpl in *; [|reflexivity].
  erewrite onNewConnection_run by reflexivity. simpl.
  repeat (break_match; simpl in *; try discriminate; inv_pairs; simpl in * );
    reflexivity.
Qed.

Lemma ensureConnected_Throw_provider {L} env (s : St L) e :
  fst (ensureConnected env s) = Throw e ->
  dev (snd (ensureConnected env s))
  = set_provider_ (provider_after_failure env (dev s)) (dev s).
Proof.
  intros H. rewrite <- (ensureConnected_Throw_provider_field env s e H).
  destruct (ensureConnected_Throw_state env s e H) as [_ [p [tr ->]]].
  reflexivity.
Qed.

(** C8, as amended: from Disconnected, [ensureConnected] fails when an
    endpoint is unreachable or an address does not resolve.  An
    [ensureConnected] that fails fails with [ConnectionError]; the object
    was Disconnected and is Disconnected afterwards.  Every member but
    [provider_] is as before, the autofocus handle included; [provider_]
    is not rolled back: it is the provider just opened when the serial
    port and the autofocus endpoint opened before a later step failed, and
    the one from before otherwise.  A retry against endpoints that answer
    succeeds and leaves exactly the object a first establishment from the
    original state would have left. *)
Theorem C8_failed_connect_stays_disconnected :
  forall (env : Env) (s : St unit),
    (connection_ (dev s) = None -> connects env (dev s) = false ->
     fst (ensureConnected env s) = Throw ConnectionError)
    /\
    forall e : error,
      fst (ensureConnected env s) = Throw e ->
      let s' := snd (ensureConnected env s) in
      e = ConnectionError
      /\ connection_ (dev s) = None
      /\ connection_ (dev s') = None
      /\ dev s' = set_provider_ (provider_after_failure env (dev s)) (dev s)
      /\ autofocus_ (dev s') = autofocus_ (dev s)
      /\ forall env' : Env,
           connects env' (dev s) = true ->
           fst (ensureConnected env' s') = Ok tt
           /\ connection_ (dev (snd (ensureConnected env' s')))
              = Some (mkConnection (port_ (dev s)))
           /\ dev (snd (ensureConnected env' s')) = dev (snd (ensureConnected env' s)).
Proof.
  intros env s. split; [apply connects_false_Throw |].
  intros e H s'.
  destruct (ensureConnected_Throw env s e H) as [-> Hnone].
  destruct (ensureConnected_Throw_state env s _ H) as [Hc [p [tr Hs]]].
  pose proof (ensureConnected_Throw_provider env s _ H) as Hp.
  fold s' in Hnone, Hs, Hp.
  split; [reflexivity | split; [assumption | split; [assumption |]]].
  split; [exact Hp | split; [now rewrite Hp |]].
  intros env' Hall.
  assert (Hid : exists id, tcp_opens env' (wdiHost_ (dev s)) (wdiPort_ (dev s)) = Some id).
  { unfold connects in Hall.
    destruct (tcp_opens env' (wdiHost_ (dev s)) (wdiPort_ (dev s))); [eauto|].
    rewrite andb_false_r in Hall. discriminate. }
  destruct Hid as [id Hid].
  rewrite (ensureConnected_establishes env' s id Hc Hid Hall).
  rewrite (ensureConnected_establishes env' s' id);
    rewrite ?Hs; simpl; auto.
Qed.

Lemma C8_failed_connect_witness :
  fst (ensureConnected unreachable_env (start WdiAutofocus_ctor tt)) = Throw ConnectionError
  /\ connection_ (dev (snd (ensureConnected unreachable_env (start WdiAutofocus_ctor tt))))
     = None
  /\ fst (ensureConnected reachable_env
            (snd (ensureConnected unreachable_env (start WdiAutofocus_ctor tt)))) = Ok tt.
Proof.
  assert (H : fst (ensureConnected unreachable_env (start WdiAutofocus_ctor tt))
              = Throw ConnectionError) by (vm_compute; reflexivity).
  pose proof (proj2 (C8_failed_connect_stays_disconnected unreachable_env
                       (start WdiAutofocus_ctor tt)) ConnectionError H) as T.
  cbv zeta in T. destruct T as [_ [_ [Hn [_ [_ Hretry]]]]].
  split; [exact H | split; [exact Hn |]].
  apply (Hretry reachable_env). vm_compute. reflexivity.
Defined.

(** C8, as stated, fails: a failed [ensureConnected] leaves partial state.
    With the autofocus endpoint open and the focus device not resolving,
    the call throws [ConnectionError] and the object is Disconnected, but
    [provider_], empty before, holds the provider just opened; and on an
    adapter that had been connected, the new provider (id 9) stands beside
    the autofocus handle built on the old one (id 7). *)
Lemma C8_counterexample :
  fst (ensureConnected unresolved_env (start WdiAutofocus_ctor tt)) = Throw ConnectionError
  /\ connection_ (dev (snd (ensureConnected unresolved_env (start WdiAutofocus_ctor tt))))
     = None
  /\ provider_ (dev (start WdiAutofocus_ctor tt)) = None
  /\ provider_ (dev (snd (ensureConnected unresolved_env (start WdiAutofocus_ctor tt))))
     = Some (mkProvider "Undefined" 27 9)
  /\ dev (snd (ensureConnected unresolved_env (start WdiAutofocus_ctor tt)))
     <> dev (start WdiAutofocus_ctor tt)
  /\ fst (ensureConnected unresolved_env (start disconnected_dev tt)) = Throw ConnectionError
  /\ option_map prov_id
       (provider_ (dev (snd (ensureConnected unresolved_env (start disconnected_dev tt)))))
     = Some 9
  /\ option_map af_providerId
       (autofocus_ (dev (snd (ensureConnected unresolved_env (start disconnected_dev tt)))))
     = Some 7.
Proof.
  assert (Hp : provider_ (dev (snd (ensureConnected unresolved_env
                                      (start WdiAutofocus_ctor tt))))
               = Some (mkProvider "Undefined" 27 9)) by (vm_compute; reflexivity).
  assert (H0 : provider_ (dev (start WdiAutofocus_ctor tt)) = None)
    by (vm_compute; reflexivity).
  repeat split; try (vm_compute; reflexivity); try assumption.
  intros Heq. rewrite Heq, H0 in Hp. discriminate Hp.
Qed.

(** *** Writes to the connection-relevant fields *)

Lemma write_relevant_initialized {L} a v env (s : St L) d' :
  connection_relevant a = true ->
  write_field a v (dev s) = Some d' ->
  initialized_ (dev s) = true ->
  apply_action a MM.AfterSet v env s
  = (Ok (DEVICE_OK, v), mkSt (set_connection_ None d') (trace s) (locals s)).
Proof.
  intros Ha Hw Hi.
  destruct a; try discriminate; destruct v; try discriminate;
    injection Hw as <-;
    unfold apply_action, WdiHostGetSet, WdiPortGetSet, FocusAddressGetSet,
      FocusAxisGetSet, ObjectiveTurretAddressGetSet, resetConnection;
    unfold_cpp; simpl; rewrite Hi; reflexivity.
Qed.

Lemma write_relevant_uninitialized {L} a v env (s : St L) d' :
  connection_relevant a = true ->
  write_field a v (dev s) = Some d' ->
  initialized_ (dev s) = false ->
  apply_action a MM.AfterSet v env s = (Ok (DEVICE_OK, v), mkSt d' (trace s) (locals s)).
Proof.
  intros Ha Hw Hi.
  destruct a; try discriminate; destruct v; try discriminate;
    injection Hw as <-;
    unfold apply_action, WdiHostGetSet, WdiPortGetSet, FocusAddressGetSet,
      FocusAxisGetSet, ObjectiveTurretAddressGetSet, resetConnection;
    unfold_cpp; simpl; rewrite Hi; reflexivity.
Qed.

(** C5, as amended: a write to a connection-relevant field (host, port,
    primary address, primary axis, secondary address) made while the
    adapter is initialised stores the value, touches no device and leaves
    the object Disconnected; the next [ensureConnected], against endpoints
    that answer, makes the whole establishment again from the members as
    they are after the write, and so does every operation, which runs its
    body behind [ensureConnected] on the object so established.  Made
    while the adapter is not initialised, the write only stores the
    value. *)
Theorem C5_write_when_initialized_disconnects :
  forall (a : Action) (v : PropValue) (env : Env) (s : St unit) (d' : WdiAutofocus),
    connection_relevant a = true ->
    write_field a v (dev s) = Some d' ->
    let r := apply_action a MM.AfterSet v env s in
    (initialized_ (dev s) = true ->
     fst r = Ok (DEVICE_OK, v)
     /\ dev (snd r) = set_connection_ None d'
     /\ connection_ (dev (snd r)) = None
     /\ trace (snd r) = trace s
     /\ forall (env' : Env) (id : Z),
          tcp_opens env' (wdiHost_ d') (wdiPort_ d') = Some id ->
          connects env' d' = true ->
          let s2 := mkSt (established d' id)
                         (trace s ++ establishment_calls d') (locals s) in
          ensureConnected env' (snd r) = (Ok tt, s2)
          /\ forall body : M unit unit,
               handleException (call ensureConnected; body) env' (snd r)
               = handleException body env' s2)
    /\ (initialized_ (dev s) = false ->
        fst r = Ok (DEVICE_OK, v)
        /\ dev (snd r) = d'
        /\ connection_ (dev (snd r)) = connection_ d'
        /\ trace (snd r) = trace s).
Proof.
  intros a v env s d' Ha Hw r. unfold r. split; intros Hi;
    [| rewrite (write_relevant_uninitialized a v env s d' Ha Hw Hi); simpl; auto].
  rewrite (write_relevant_initialized a v env s d' Ha Hw Hi). simpl.
  do 4 (split; [reflexivity |]).
  intros env' id Ht Hall.
  assert (He : ensureConnected env'
                 (mkSt (set_connection_ None d') (trace s) (locals s))
               = (Ok tt, mkSt (established d' id)
                              (trace s ++ establishment_calls d') (locals s)))
    by (rewrite (ensureConnected_establishes env' _ id); simpl; auto).
  split; [exact He |].
  intros body. rewrite !handleException_spec. unfold bind. now rewrite He.
Qed.

(** After [Initialize], a new host name and then a focus command: the
    provider is opened again, at the new host. *)
Lemma C5_write_when_initialized_witness :
  connection_ (dev (snd (apply_action ActWdiHostGetSet MM.AfterSet (VString "wdi.local")
                           reachable_env (start initialized_dev tt)))) = None
  /\ ensureConnected reachable_env
       (snd (apply_action ActWdiHostGetSet MM.AfterSet (VString "wdi.local")
               reachable_env (start initialized_dev tt)))
     = (Ok tt, mkSt (established (set_wdiHost_ "wdi.local" initialized_dev) 7)
                    (establishment_calls (set_wdiHost_ "wdi.local" initialized_dev)) tt).
Proof.
  pose proof (C5_write_when_initialized_disconnects ActWdiHostGetSet (VString "wdi.local")
                reachable_env (start initialized_dev tt)
                (set_wdiHost_ "wdi.local" initialized_dev) eq_refl eq_refl) as T.
  assert (Hi : initialized_ (dev (start initialized_dev tt)) = true)
    by (vm_compute; reflexivity).
  cbv zeta in T. destruct T as [T _].
  destruct (T Hi) as [_ [_ [Hn [_ Hre]]]].
  split; [exact Hn |].
  apply (Hre reachable_env 7); vm_compute; reflexivity.
Defined.

(** C5, as stated, fails: after [Shutdown] a connection exists and the
    adapter is not initialised; the write of a new host name leaves the
    connection in place, and the [Initialize] that follows succeeds on the
    provider opened at the old host. *)
Lemma C5_counterexample :
  connection_ shut_down_dev <> None
  /\ connection_ (dev (snd (apply_action ActWdiHostGetSet MM.AfterSet (VString "wdi.local")
                              reachable_env (start shut_down_dev tt)))) <> None
  /\ let s2 := snd (Initialize reachable_env
                      (snd (apply_action ActWdiHostGetSet MM.AfterSet (VString "wdi.local")
                              reachable_env (start shut_down_dev tt)))) in
     initialized_ (dev s2) = true
     /\ wdiHost_ (dev s2) = "wdi.local"
     /\ option_map prov_host (provider_ (dev s2)) = Some "Undefined".
Proof. vm_compute. repeat split; discriminate. Qed.

(** *** The declared bounds *)

(** C3, on the code: the constructor declares [1,99] for the focus device
    number, but its third [SetPropertyLimits] names the focus axis again,
    so that the axis number ends up with [-1,99] and the turret device
    number with no bounds.  An out-of-range focus address is refused
    before any action runs; an axis number of 0 and a turret address of
    100 are accepted and stored. *)
Theorem C3_declared_bounds_on_the_code :
  declared_limits "Focus Stage Device Number" = Some (Some (1, 99))
  /\ declared_limits "Focus Stage Axis Number" = Some (Some (-1, 99))
  /\ declared_limits "Objective Turret Device Number" = Some None
  /\ (let r := SetProperty "Focus Stage Device Number" (VInteger 100) reachable_env
                 (start WdiAutofocus_ctor tt) in
      fst r = Ok (DEVICE_ERR ConfigurationError)
      /\ snd r = start WdiAutofocus_ctor tt)
  /\ (let r := SetProperty "Focus Stage Axis Number" (VInteger 0) reachable_env
                 (start WdiAutofocus_ctor tt) in
      fst r = Ok DEVICE_OK /\ focusAxis_ (dev (snd r)) = 0)
  /\ (let r := SetProperty "Objective Turret Device Number" (VInteger 100) reachable_env
                 (start WdiAutofocus_ctor tt) in
      fst r = Ok DEVICE_OK /\ objectiveTurretAddress_ (dev (snd r)) = 100).
Proof. vm_compute. repeat split; reflexivity. Qed.

(** Whatever the members, a value outside the bounds a property declares
    is refused with [ConfigurationError], and neither the object nor the
    trace changes. *)
Lemma SetProperty_out_of_bounds {L} name p lo hi z env (s : St L) :
  properties_ (dev s) !! name = Some p ->
  prop_limits p = Some (lo, hi) ->
  z < lo \/ hi < z ->
  SetProperty name (VInteger z) env s = (Ok (DEVICE_ERR ConfigurationError), s).
Proof.
  intros Hp Hl Hz. unfold SetProperty. unfold_cpp. rewrite Hp.
  unfold within_limits. rewrite Hl.
  assert ((lo <=? z) && (z <=? hi) = false) as -> by lia.
  reflexivity.
Qed.

(** *** Facts on [SpecFloat] *)

Section SpecFloatFacts.

Variables prec emax : Z.

Lemma digits2_pos_iter_xO (m n : positive) :
  digits2_pos (Pos.iter xO m n) = (digits2_pos m + n)%positive.
Proof.
  induction n as [|n IH] using Pos.peano_ind.
  - simpl. lia.
  - rewrite Pos.iter_succ. simpl. rewrite IH. lia.
Qed.

Lemma Zpos_iter_xO (m n : positive) :
  Zpos (Pos.iter xO m n) = Zpos m * 2 ^ Zpos n.
Proof.
  induction n as [|n IH] using Pos.peano_ind.
  - simpl. lia.
  - rewrite Pos.iter_succ, Pos2Z.inj_succ, Z.pow_succ_r by lia.
    rewrite Pos2Z.inj_xO, IH. ring.
Qed.

Lemma digits2_pos_le (m : positive) : 2 ^ (Zpos (digits2_pos m) - 1) <= Zpos m.
Proof.
  induction m as [m IH|m IH|]; simpl digits2_pos;
    rewrite ?Pos2Z.inj_succ; try (cbn; lia);
    replace (Z.succ (Zpos (digits2_pos m)) - 1) with (Z.succ (Zpos (digits2_pos m) - 1)) by lia;
    rewrite Z.pow_succ_r by lia; lia.
Qed.

(** A mantissa already in canonical position goes through the rounding
    unchanged. *)
Lemma binary_round_aux_canonical (s : bool) (m : positive) (e : Z) :
  fexp prec emax (Zpos (digits2_pos m) + e) = e ->
  e <= emax - prec ->
  binary_round_aux prec emax s (Zpos m) e loc_Exact = S754_finite s m e.
Proof.
  intros Hc He.
  unfold binary_round_aux, shr_fexp. cbn [Zdigits2 shr_record_of_loc].
  rewrite Hc, Z.sub_diag. cbn [shr shr_m loc_of_shr_record round_nearest_even Zdigits2].
  rewrite Hc, Z.sub_diag. cbn [shr shr_m shr_record_of_loc].
  apply Z.leb_le in He. now rewrite He.
Qed.

(** Rounding a number that fits the precision only aligns its mantissa. *)
Lemma binary_round_fits (s : bool) (m : positive) (e : Z) :
  Zpos (digits2_pos m) <= prec ->
  emin prec emax <= Zpos (digits2_pos m) + e - prec ->
  Zpos (digits2_pos m) + e <= emax ->
  exists m', 
    binary_round prec emax s m e
      = S754_finite s m' (Zpos (digits2_pos m) + e - prec)
    /\ Zpos (digits2_pos m') = prec
    /\ Zpos m' = Zpos m * 2 ^ (prec - Zpos (digits2_pos m)).
Proof.
  intros Hd Hmin Hmax. set (d := Zpos (digits2_pos m)) in *.
  assert (Hf : fexp prec emax (d + e) = d + e - prec) by (unfold fexp; lia).
  unfold binary_round, shl_align. fold d. rewrite Hf.
  destruct (d + e - prec - e) as [|p|p] eqn:Hs; try lia.
  - exists m. assert (d = prec) by lia. split; [|split].
    + replace (d + e - prec) with e by lia.
      apply binary_round_aux_canonical; fold d; unfold fexp in *; lia.
    + assumption.
    + replace (prec - d) with 0 by lia. lia.
  - exists (Pos.iter xO m p). split; [|split].
    + apply binary_round_aux_canonical.
      * rewrite digits2_pos_iter_xO, Pos2Z.inj_add. fold d. unfold fexp in *. lia.
      * lia.
    + rewrite digits2_pos_iter_xO, Pos2Z.inj_add. fold d. lia.
    + rewrite Zpos_iter_xO. f_equal. f_equal. lia.
Qed.

End SpecFloatFacts.

(** Dividing a normal binary32 number by [1024.0f] lowers its exponent by
    ten and keeps its mantissa. *)
Lemma Float32_div_1024 (s : bool) (m : positive) (e : Z) :
  Zpos (digits2_pos m) = 24 ->
  -138 <= e <= 114 ->
  Float32.div (S754_finite s m e) (Float32.of_int 1024) = S754_finite s m (e - 10).
Proof.
  intros Hd He.
  change (Float32.of_int 1024) with (S754_finite false 8388608 (-13)).
  unfold Float32.div, SFdiv, SFdiv_core_binary.
  cbn [Zdigits2]. rewrite Hd.
  change (Zpos (digits2_pos 8388608)) with 24.
  replace (Z.min (fexp Float32.prec Float32.emax (24 + e - (24 + -13))) (e - -13))
    with (e - 11) by (unfold fexp, emin, Float32.prec, Float32.emax; lia).
  replace (e - -13 - (e - 11)) with 24 by lia.
  assert (Hq : Z.div_eucl (Z.shiftl (Zpos m) 24) 8388608 = (Zpos m~0, 0)).
  { rewrite Z.shiftl_mul_pow2 by lia.
    pose proof (Z.div_eucl_eq (Zpos m * 2 ^ 24) 8388608 ltac:(lia)) as Heq.
    pose proof (Z.mod_pos_bound (Zpos m * 2 ^ 24) 8388608 ltac:(lia)) as Hb.
    unfold Z.modulo in Hb.
    destruct (Z.div_eucl (Zpos m * 2 ^ 24) 8388608) as [q r].
    change (2 ^ 24) with (2 * 8388608) in Heq.
    assert (q = Zpos m~0 /\ r = 0) as [-> ->] by nia. reflexivity. }
  rewrite Hq. rewrite xorb_false_r.
  change (new_location 8388608 0) with loc_Exact.
  unfold binary_round_aux, shr_fexp.
  cbn [Zdigits2 digits2_pos shr_record_of_loc]. rewrite Pos2Z.inj_succ, Hd.
  replace (fexp Float32.prec Float32.emax (Z.succ 24 + (e - 11)) - (e - 11)) with 1
    by (unfold fexp, emin, Float32.prec, Float32.emax; lia).
  cbn [shr SpecFloat.iter_pos shr_1 orb shr_m loc_of_shr_record round_nearest_even Zdigits2].
  rewrite Hd.
  replace (fexp Float32.prec Float32.emax (24 + (e - 11 + 1)) - (e - 11 + 1)) with 0
    by (unfold fexp, emin, Float32.prec, Float32.emax; lia).
  cbn [shr shr_m shr_record_of_loc].
  replace (e - 11 + 1) with (e - 10) by lia.
  replace (e - 10 <=? Float32.emax - Float32.prec) with true
    by (symmetry; apply Z.leb_le; unfold Float32.prec, Float32.emax; lia).
  reflexivity.
Qed.

Lemma score_of_pos (s : bool) (m : positive) :
  Zpos m < 2 ^ 24 ->
  let x := Float64.of_float
             (Float32.abs (Float32.div (binary_round Float32.prec Float32.emax s m 0)
                                       (Float32.of_int 1024))) in
  SFis_finite x = true /\ (SF2Q x == Zpos m # 1024)%Q.
Proof.
  intros Hm. set (d := Zpos (digits2_pos m)).
  assert (Hd : 1 <= d <= 24).
  { split; [unfold d; lia|].
    destruct (Z_le_gt_dec d 24) as [?|Hgt]; [assumption|exfalso].
    pose proof (digits2_pos_le m) as Hle. fold d in Hle.
    assert (2 ^ 24 <= 2 ^ (d - 1)) by (apply Z.pow_le_mono_r; lia). lia. }
  destruct (binary_round_fits Float32.prec Float32.emax s m 0)
    as [m1 [E1 [D1 V1]]]; fold d;
    try (unfold emin, Float32.prec, Float32.emax; lia).
  fold d in E1, V1. cbv zeta. rewrite E1.
  rewrite Float32_div_1024 by (try assumption; unfold Float32.prec; lia).
  cbn [Float32.abs SFabs Float64.of_float].
  destruct (binary_round_fits Float64.prec Float64.emax false m1
              (d + 0 - Float32.prec - 10))
    as [m2 [E2 [D2 V2]]]; rewrite ?D1;
    try (unfold emin, Float32.prec, Float64.prec, Float64.emax; lia).
  rewrite D1 in E2, V2. rewrite E2. split; [reflexivity|].
  unfold Float32.prec, Float64.prec in *.
  replace (24 + (d + 0 - 24 - 10) - 53) with (d - 63) by lia.
  destruct (d - 63) as [|q|q] eqn:Hq; try lia.
  unfold SF2Q, cond_Zopp, Qeq. cbn [Qnum Qden].
  rewrite Pos2Z.inj_pow, V2, V1.
  replace (Zpos q) with (63 - d) by lia.
  replace (63 - d) with ((24 - d) + (53 - 24) + 10) by lia.
  rewrite !Z.pow_add_r by lia. change (2 ^ 10) with 1024. ring.
Qed.

(** For a reading of magnitude at most 2^24 the score is the rational
    [|raw| / 1024], exactly. *)
Lemma score_of_exact (raw : Z) :
  Z.abs raw <= 2 ^ 24 ->
  SFis_finite (score_of raw) = true
  /\ (SF2Q (score_of raw) == Qabs (raw # 1024))%Q.
Proof.
  intros H.
  destruct (Z.eq_dec (Z.abs raw) (2 ^ 24)) as [He|Hne].
  - assert (raw = 16777216 \/ raw = -16777216) as [-> | ->] by lia;
      split; reflexivity.
  - destruct raw as [|m|m].
    + split; reflexivity.
    + apply (score_of_pos false m). lia.
    + apply (score_of_pos true m). lia.
Qed.

(** *** The focus score *)

Lemma ensureConnected_succeeds {L} env (s : St L) :
  connection_ (dev s) <> None \/ connects env (dev s) = true ->
  exists s1, ensureConnected env s = (Ok tt, s1) /\ locals s1 = locals s.
Proof.
  intros H. destruct (connection_ (dev s)) as [c|] eqn:Hc.
  - exists s. split; [now apply (ensureConnected_connected env s c) | reflexivity].
  - destruct H as [H|H]; [congruence|].
    destruct (tcp_opens env (wdiHost_ (dev s)) (wdiPort_ (dev s))) as [id|] eqn:Ht.
    + eexists. split; [now apply (ensureConnected_establishes env s id) | reflexivity].
    + unfold connects in H. rewrite Ht, andb_false_r in H. discriminate.
Qed.

Lemma GetCurrentFocusScore_read env (s : St spec_float) position0 v :
  connection_ (dev s) <> None \/ connects env (dev s) = true ->
  generic_read env = Some v ->
  fst (GetCurrentFocusScore position0 env s) = Ok DEVICE_OK
  /\ locals (snd (GetCurrentFocusScore position0 env s)) = score_of (index0 v).
Proof.
  intros Hc Hr.
  destruct (ensureConnected_succeeds env (mkSt (dev s) (trace s) position0) Hc)
    as [s1 [He _]].
  unfold GetCurrentFocusScore, ReadWdiPosition, genericRead.
  unfold_cpp. simpl. rewrite He. simpl. rewrite Hr. simpl. auto.
Qed.

Lemma GetCurrentFocusScore_failed_read env (s : St spec_float) position0 :
  connection_ (dev s) <> None \/ connects env (dev s) = true ->
  generic_read env = None ->
  fst (GetCurrentFocusScore position0 env s) = Ok (DEVICE_ERR DeviceCommunicationError)
  /\ locals (snd (GetCurrentFocusScore position0 env s))
     = Float64.of_float (Float32.abs position0).
Proof.
  intros Hc Hr.
  destruct (ensureConnected_succeeds env (mkSt (dev s) (trace s) position0) Hc)
    as [s1 [He Hl]].
  unfold GetCurrentFocusScore, ReadWdiPosition, genericRead.
  unfold_cpp. simpl. rewrite He. simpl. rewrite Hr. simpl. simpl in Hl.
  now rewrite Hl.
Qed.

(** The examples of the specification: raw -2048 gives 2.0 and raw 512
    gives 0.5. *)
Example score_of_minus_2048 : score_of (-2048) = Float64.of_int 2.
Proof. reflexivity. Qed.

Example score_of_512 :
  score_of 512 = Float64.div (Float64.of_int 1) (Float64.of_int 2).
Proof. reflexivity. Qed.

(** C4, as amended: once connected, [GetCurrentFocusScore] turns a raw
    reading into the [double] of [|float(raw) / 1024.0f|] and returns
    [DEVICE_OK]; for a reading of magnitude at most 2^24, which binary32
    holds exactly, that score is the number [|raw / 1024|].  When the read
    fails it returns [DeviceCommunicationError] to its caller. *)
Theorem C4_focus_score :
  forall (env : Env) (s : St spec_float) (position0 : spec_float),
    connection_ (dev s) <> None \/ connects env (dev s) = true ->
    let r := GetCurrentFocusScore position0 env s in
    (forall raw rest,
        generic_read env = Some (raw :: rest) ->
        fst r = Ok DEVICE_OK
        /\ locals (snd r) = score_of raw
        /\ (Z.abs raw <= 2 ^ 24 ->
            SFis_finite (locals (snd r)) = true
            /\ (SF2Q (locals (snd r)) == Qabs (raw # 1024))%Q))
    /\ (generic_read env = None ->
        fst r = Ok (DEVICE_ERR DeviceCommunicationError)).
Proof.
  intros env s position0 Hc r. unfold r. split.
  - intros raw rest Hr.
    destruct (GetCurrentFocusScore_read env s position0 _ Hc Hr) as [-> ->].
    split; [reflexivity | split; [reflexivity |]].
    apply score_of_exact.
  - intros Hr. now apply GetCurrentFocusScore_failed_read.
Qed.

Lemma C4_focus_score_witness :
  fst (GetCurrentFocusScore S754_nan (reading_env (-2048))
         (start initialized_dev (S754_zero false))) = Ok DEVICE_OK
  /\ (SF2Q (locals (snd (GetCurrentFocusScore S754_nan (reading_env (-2048))
                           (start initialized_dev (S754_zero false)))))
      == Qabs (-2048 # 1024))%Q.
Proof.
  assert (Hc : connection_ (dev (start initialized_dev (S754_zero false))) <> None
               \/ connects (reading_env (-2048))
                    (dev (start initialized_dev (S754_zero false))) = true)
    by (left; vm_compute; discriminate).
  pose proof (C4_focus_score (reading_env (-2048))
                (start initialized_dev (S754_zero false)) S754_nan Hc) as T.
  cbv zeta in T. destruct T as [T _].
  destruct (T (-2048) [] eq_refl) as [Hok [_ Hex]].
  split; [exact Hok |]. apply Hex. vm_compute. discriminate.
Defined.

(** C4, as stated, fails on a reading that binary32 does not hold: 2^24+1
    is rounded to 2^24 before the division, and the score is 16384, not
    16777217/1024. *)
Lemma C4_counterexample :
  fst (GetCurrentFocusScore S754_nan (reading_env 16777217)
         (start initialized_dev (S754_zero false))) = Ok DEVICE_OK
  /\ locals (snd (GetCurrentFocusScore S754_nan (reading_env 16777217)
                    (start initialized_dev (S754_zero false))))
     = Float64.of_int 16384
  /\ ~ (SF2Q (locals (snd (GetCurrentFocusScore S754_nan (reading_env 16777217)
                             (start initialized_dev (S754_zero false)))))
        == Qabs (16777217 # 1024))%Q.
Proof.
  split; [vm_compute; reflexivity | split; [vm_compute; reflexivity |]].
  intros H. vm_compute in H. discriminate.
Qed.

(** *** The image buffer *)

Module PyCameraFacts.
Import PyCamera.

Lemma GetImageBuffer_array (c : CPyCamera) (a : PyArrayObject) :
  py_read (object_ c) = Some (PyArray a) ->
  well_formed_image c a ->
  fst (GetImageBuffer c) = data a.
Proof.
  intros Hr (Hn & Ht & Hf & Hh & Hw).
  unfold GetImageBuffer. simpl. rewrite Hr. simpl.
  rewrite Hn, Ht. simpl.
  destruct (Z.eqb_spec (Z.land (flags a) NPY_ARRAY_C_CONTIGUOUS) 0); [contradiction|].
  simpl. unfold GetImageWidth, GetImageHeight in *. simpl.
  rewrite Hh, Hw, !Z.eqb_refl. reflexivity.
Qed.

Lemma GetImageBuffer_nonnull (c : CPyCamera) :
  fst (GetImageBuffer c) <> nullptr ->
  exists a, py_read (object_ c) = Some (PyArray a)
            /\ well_formed_image c a
            /\ fst (GetImageBuffer c) = data a.
Proof.
  unfold GetImageBuffer. simpl.
  destruct (py_read (object_ c)) as [[a|]|] eqn:Hr; simpl; try congruence.
  destruct (Z.eqb_spec (nd a) 2) as [Hn|]; simpl; [|congruence].
  destruct (Z.eqb_spec (type_num a) NPY_UINT16) as [Ht|]; simpl; [|congruence].
  destruct (Z.eqb_spec (Z.land (flags a) NPY_ARRAY_C_CONTIGUOUS) 0) as [|Hf];
    simpl; [congruence|].
  unfold GetImageWidth, GetImageHeight. simpl.
  destruct (Z.eqb_spec (PyArray_DIM a 1) (to_unsigned (py_width (object_ c))))
    as [Hw|]; simpl; [|congruence].
  destruct (Z.eqb_spec (PyArray_DIM a 0) (to_unsigned (py_height (object_ c))))
    as [Hh|]; simpl; [|congruence].
  intros _. exists a. unfold well_formed_image, GetImageWidth, GetImageHeight.
  simpl. auto 10.
Qed.

End PyCameraFacts.

(** C10: [GetImageBuffer] returns a non-null pointer only when [read]
    answered a numpy array of two dimensions, of 16-bit unsigned integers,
    C-contiguous, whose dimensions are [(GetImageHeight, GetImageWidth)],
    and the pointer is then the array's data; on a read error, on an
    object that is no array and on any mismatch of shape, type, contiguity
    or size it returns null; an array that passes every check has its
    data pointer returned. *)
Theorem C10_image_buffer_checked :
  forall c : PyCamera.CPyCamera,
    (fst (PyCamera.GetImageBuffer c) <> PyCamera.nullptr ->
     exists a, PyCamera.py_read (PyCamera.object_ c) = Some (PyCamera.PyArray a)
               /\ PyCamera.well_formed_image c a
               /\ fst (PyCamera.GetImageBuffer c) = PyCamera.data a)
    /\ (PyCamera.py_read (PyCamera.object_ c) = None ->
        fst (PyCamera.GetImageBuffer c) = PyCamera.nullptr)
    /\ (PyCamera.py_read (PyCamera.object_ c) = Some PyCamera.PyOther ->
        fst (PyCamera.GetImageBuffer c) = PyCamera.nullptr)
    /\ (forall a, PyCamera.py_read (PyCamera.object_ c) = Some (PyCamera.PyArray a) ->
                  ~ PyCamera.well_formed_image c a ->
                  fst (PyCamera.GetImageBuffer c) = PyCamera.nullptr)
    /\ (forall a, PyCamera.py_read (PyCamera.object_ c) = Some (PyCamera.PyArray a) ->
                  PyCamera.well_formed_image c a ->
                  fst (PyCamera.GetImageBuffer c) = PyCamera.data a).
Proof.
  intros c. repeat apply conj; [| | | | apply PyCameraFacts.GetImageBuffer_array].
  - apply PyCameraFacts.GetImageBuffer_nonnull.
  - intros Hr. unfold PyCamera.GetImageBuffer. simpl. now rewrite Hr.
  - intros Hr. unfold PyCamera.GetImageBuffer. simpl. now rewrite Hr.
  - intros a Hr Hbad.
    destruct (Z.eq_dec (fst (PyCamera.GetImageBuffer c)) PyCamera.nullptr) as [|Hnn];
      [assumption|exfalso].
    destruct (PyCameraFacts.GetImageBuffer_nonnull c Hnn) as [a' [Hr' [Hwf _]]].
    rewrite Hr in Hr'. injection Hr' as <-. contradiction.
Qed.

Lemma C10_image_buffer_witness :
  fst (PyCamera.GetImageBuffer camera_3x4) <> PyCamera.nullptr
  /\ exists a, PyCamera.py_read (PyCamera.object_ camera_3x4) = Some (PyCamera.PyArray a)
               /\ PyCamera.well_formed_image camera_3x4 a
               /\ fst (PyCamera.GetImageBuffer camera_3x4) = PyCamera.data a.
Proof.
  assert (H : fst (PyCamera.GetImageBuffer camera_3x4) <> PyCamera.nullptr)
    by (vm_compute; discriminate).
  split; [exact H |].
  exact (proj1 (C10_image_buffer_checked camera_3x4) H).
Defined.

(** * Further properties of the adapters *)

(** *** A relational frame rule for the monad *)

Section Keeps.

Context (R : WdiAutofocus -> WdiAutofocus -> Prop) `{!PreOrder R}.

Lemma keeps_ret {L A} (a : A) : keeps R (@ret L A a).
Proof. intros env s. reflexivity. Qed.

Lemma keeps_throw {L A} e : keeps R (@throw L A e).
Proof. intros env s. reflexivity. Qed.

Lemma keeps_this {L} : keeps R (@this L).
Proof. intros env s. reflexivity. Qed.

Lemma keeps_ask {L} : keeps R (@ask L).
Proof. intros env s. reflexivity. Qed.

Lemma keeps_emit {L} ev : keeps R (@emit L ev).
Proof. intros env s. reflexivity. Qed.

Lemma keeps_get_local {L} : keeps R (@get_local L).
Proof. intros env s. reflexivity. Qed.

Lemma keeps_set_local {L} v : keeps R (@set_local L v).
Proof. intros env s. reflexivity. Qed.

Lemma keeps_bind {L A B} (m : M L A) (k : A -> M L B) :
  keeps R m -> (forall a, keeps R (k a)) -> keeps R (bind m k).
Proof.
  intros Hm Hk env s. unfold bind. specialize (Hm env s).
  destruct (m env s) as [[a|e] s1]; simpl in *; [|assumption].
  etransitivity; [exact Hm | apply Hk].
Qed.

Lemma keeps_try_catch {L A} (m : M L A) h :
  keeps R m -> (forall e, keeps R (h e)) -> keeps R (try_catch m h).
Proof.
  intros Hm Hh env s. unfold try_catch. specialize (Hm env s).
  destruct (m env s) as [[a|e] s1]; simpl in *; [assumption|].
  etransitivity; [exact Hm | apply Hh].
Qed.

Lemma keeps_handleException {L} (w : M L unit) : keeps R w -> keeps R (handleException w).
Proof.
  intros Hw. unfold handleException.
  apply keeps_try_catch; [apply keeps_bind; [assumption|] |]; intros; apply keeps_ret.
Qed.

End Keeps.

Lemma keeps_assign {L} R f : (forall d, R d (f d)) -> keeps R (@assign L f).
Proof. intros H env s. apply H. Qed.

Lemma keeps_with_local {L L' A} R (init : L') (m : M L' A) :
  keeps R m -> keeps R (@with_local L L' A init m).
Proof.
  intros Hm env s. unfold with_local.
  specialize (Hm env (mkSt (dev s) (trace s) init)).
  destruct (m env (mkSt (dev s) (trace s) init)) as [[a|e] s1]; exact Hm.
Qed.

(** One step of a frame proof: the rule of the construct at the head, or
    a case split on what a branch looks at. *)
Ltac keeps_step :=
  lazymatch goal with
  | |- keeps _ (bind _ _) => apply keeps_bind; [typeclasses eauto | | intros ?]
  | |- keeps _ (ret _) => apply keeps_ret; typeclasses eauto
  | |- keeps _ (throw _) => apply keeps_throw; typeclasses eauto
  | |- keeps _ this => apply keeps_this; typeclasses eauto
  | |- keeps _ ask => apply keeps_ask; typeclasses eauto
  | |- keeps _ (emit _) => apply keeps_emit; typeclasses eauto
  | |- keeps _ get_local => apply keeps_get_local; typeclasses eauto
  | |- keeps _ (set_local _) => apply keeps_set_local; typeclasses eauto
  | |- keeps _ (handleException _) => apply keeps_handleException; [typeclasses eauto |]
  | |- keeps _ (try_catch _ _) => apply keeps_try_catch; [typeclasses eauto | | intros ?]
  | |- keeps _ (with_local _ _) => apply keeps_with_local
  | |- keeps _ (if ?b then _ else _) => destruct b
  | |- keeps _ (match ?x with _ => _ end) => destruct x
  end.

(** *** No exception leaves the adapter *)

Lemma returns_ret {L A} (a : A) : returns (@ret L A a).
Proof. intros env s. unfold ret. eauto. Qed.

Lemma returns_this {L} : returns (@this L).
Proof. intros env s. unfold this. eauto. Qed.

Lemma returns_assign {L} f : returns (@assign L f).
Proof. intros env s. unfold assign. eauto. Qed.

Lemma returns_get_local {L} : returns (@get_local L).
Proof. intros env s. unfold get_local. eauto. Qed.

Lemma returns_set_local {L} v : returns (@set_local L v).
Proof. intros env s. unfold set_local. eauto. Qed.

Lemma returns_bind {L A B} (m : M L A) (k : A -> M L B) :
  returns m -> (forall a, returns (k a)) -> returns (bind m k).
Proof.
  intros Hm Hk env s. unfold bind.
  destruct (Hm env s) as [a [s1 ->]]. apply Hk.
Qed.

(** Whatever the closure does, [handleException] returns. *)
Lemma returns_handleException {L} (w : M L unit) : returns (handleException w).
Proof. intros env s. rewrite handleException_spec. eauto. Qed.

Lemma returns_with_local {L L' A} (init : L') (m : M L' A) :
  returns m -> returns (@with_local L L' A init m).
Proof.
  intros Hm env s. unfold with_local.
  destruct (Hm env (mkSt (dev s) (trace s) init)) as [a [s1 ->]]. eauto.
Qed.

Ltac returns_step :=
  lazymatch goal with
  | |- returns (bind _ _) => apply returns_bind; [| intros ?]
  | |- returns (ret _) => apply returns_ret
  | |- returns this => apply returns_this
  | |- returns (assign _) => apply returns_assign
  | |- returns get_local => apply returns_get_local
  | |- returns (set_local _) => apply returns_set_local
  | |- returns (handleException _) => apply returns_handleException
  | |- returns (with_local _ _) => apply returns_with_local
  | |- returns (if ?b then _ else _) => destruct b
  | |- returns (match ?x with _ => _ end) => destruct x
  end.

Ltac unfold_members :=
  unfold invoke, Initialize, UpdateStatus, Shutdown, Busy, apply_action,
    PortGetSet, WdiHostGetSet, WdiPortGetSet, FocusAddressGetSet, FocusAxisGetSet,
    ObjectiveTurretAddressGetSet, LimitMinGetSet, LimitMaxGetSet,
    FullFocus, IncrementalFocus, GetLastFocusScore, GetCurrentFocusScore,
    ReadWdiPosition, GetOffset, SetOffset, AutoSetParameters,
    SetContinuousFocusing, GetContinuousFocusing, IsContinuousFocusLocked,
    resetConnection.

Lemma invoke_returns (c : Call) : returns (invoke c).
Proof.
  destruct c as [| | |a eAct pProp| | | | | | | | | |]; unfold_members;
    repeat returns_step.
Qed.

(** X1: no call of the device API lets an exception out: whatever the
    object, the arguments and the answers of the transport, the call
    returns. *)
Theorem X1_no_exception_escapes :
  forall (c : Call) (env : Env) (s : St unit),
    exists s', invoke c env s = (Ok tt, s').
Proof.
  intros c env s. destruct (invoke_returns c env s) as [[] [s' H]]. eauto.
Qed.

(** *** What a call leaves alone *)

#[local] Instance config_kept_preorder : PreOrder config_kept.
Proof.
  split; unfold config_kept; [intros d; reflexivity | intros d1 d2 d3; congruence].
Qed.

Ltac config_step :=
  first [ keeps_step
        | apply keeps_assign; intros; reflexivity ].

Lemma onNewConnection_config {L} : keeps config_kept (@onNewConnection L).
Proof.
  unfold onNewConnection, ZaberBase_onNewConnection, openTcp, getDevice, getAxis.
  repeat config_step.
Qed.

Lemma ensureConnected_config {L} : keeps config_kept (@ensureConnected L).
Proof.
  unfold ensureConnected, getConnection.
  repeat first [apply onNewConnection_config | config_step].
Qed.

Lemma invoke_config (c : Call) :
  reconfigures c = false -> keeps config_kept (invoke c).
Proof.
  intros Hc.
  destruct c as [| | |a eAct pProp| | | | | | | | | |]; try discriminate;
    [| destruct eAct; try discriminate | ..];
    unfold_members;
    unfold isBusy, getStatus, genericRead, focusOnce, startFocusLoop, stopFocusLoop,
      device_write;
    repeat first [apply ensureConnected_config | config_step].
Qed.

(** X2: a status query, a focus command, a score or offset read and a
    property read change no configuration member: [initialized_], the
    port, the property table, the host, the addresses and both limits are
    afterwards what they were. *)
Theorem X2_queries_and_commands_keep_configuration :
  forall (c : Call) (env : Env) (s : St unit),
    reconfigures c = false ->
    configuration (dev (snd (invoke c env s))) = configuration (dev s).
Proof. intros c env s Hc. exact (invoke_config c Hc env s). Qed.

Lemma X2_queries_and_commands_keep_configuration_witness :
  configuration (dev (snd (invoke (CallSetContinuousFocusing true) failing_writes_env
                             (start WdiAutofocus_ctor tt))))
  = configuration (dev (start WdiAutofocus_ctor tt)).
Proof.
  exact (X2_queries_and_commands_keep_configuration (CallSetContinuousFocusing true)
           failing_writes_env (start WdiAutofocus_ctor tt) eq_refl).
Defined.

(** *** The handles of a connected object *)

#[local] Instance handles_stay_preorder : PreOrder handles_stay.
Proof. split; unfold handles_stay; [intros d; auto | intros d1 d2 d3; auto]. Qed.

Lemma ensureConnected_handles {L} : keeps handles_stay (@ensureConnected L).
Proof.
  intros env s Hb.
  destruct (connection_ (dev s)) as [c|] eqn:Hc.
  - now rewrite (ensureConnected_connected env s c Hc).
  - unfold ensureConnected, getConnection. unfold_cpp. simpl. rewrite Hc.
    destruct (serial_opens env (port_ (dev s))); simpl; [|exact Hb].
    erewrite onNewConnection_run by reflexivity. simpl.
    repeat (break_match; simpl in *; inv_pairs; simpl in * );
      unfold handles_built; simpl; intros Hn; try congruence;
      eexists; eexists; repeat split.
Qed.

Lemma CreateProperty_handles name v t ro act pre d :
  handles_stay d (CreateProperty name v t ro act pre d).
Proof. unfold CreateProperty. destruct (properties_ d !! name); intros H; exact H. Qed.

Ltac handles_step :=
  first [ apply ensureConnected_handles
        | keeps_step
        | apply keeps_assign; intros ? ?;
          first [ assumption
                | apply CreateProperty_handles; assumption
                | unfold handles_built; simpl; congruence ] ].

Lemma invoke_handles (c : Call) : keeps handles_stay (invoke c).
Proof.
  destruct c as [| | |a eAct pProp| | | | | | | | | |];
    unfold_members;
    unfold isBusy, getStatus, genericRead, settingsGet, setLimitMin, setLimitMax,
      focusOnce, startFocusLoop, stopFocusLoop, device_write,
      CreateFloatProperty;
    repeat handles_step.
Qed.

Lemma run_calls_handles (calls : list (Env * Call)) (s : St unit) :
  handles_built (dev s) -> handles_built (dev (run_calls calls s)).
Proof.
  revert s. induction calls as [|[env c] calls IH]; intros s H; [exact H|].
  apply IH. now apply invoke_handles.
Qed.

(** X3: whatever calls the host makes on a constructed adapter, in
    whatever order and whatever the transport answers, a connection never
    exists without the provider and the autofocus handle built on it, the
    handle carrying the provider's id. *)
Theorem X3_connected_means_handles_built :
  forall calls : list (Env * Call),
    handles_built (dev (run_calls calls (start WdiAutofocus_ctor tt))).
Proof.
  intros calls. apply run_calls_handles.
  unfold handles_built. intros H. exfalso. apply H. reflexivity.
Qed.

(** *** The property table *)

#[local] Instance table_kept_preorder : PreOrder table_kept.
Proof.
  split; unfold table_kept.
  - intros d. auto.
  - intros d1 d2 d3 [H1 H1'] [H2 H2']. split; [congruence | auto].
Qed.

Lemma config_kept_table_kept d d' : config_kept d d' -> table_kept d d'.
Proof.
  unfold config_kept, table_kept, configuration. intros [= Hi _ Hp _ _ _ _ _ _ _].
  split; congruence.
Qed.

Lemma keeps_weaken {L A} (R R' : WdiAutofocus -> WdiAutofocus -> Prop) (m : M L A) :
  (forall d d', R d d' -> R' d d') -> keeps R m -> keeps R' m.
Proof. intros H Hm env s. apply H, Hm. Qed.

Lemma ensureConnected_table {L} : keeps table_kept (@ensureConnected L).
Proof. exact (keeps_weaken _ _ _ config_kept_table_kept ensureConnected_config). Qed.

Ltac table_step :=
  first [ apply ensureConnected_table
        | keeps_step
        | apply keeps_assign; intros ?; split; simpl; [reflexivity | congruence] ].

Lemma invoke_table (c : Call) : c <> CallInitialize -> keeps table_kept (invoke c).
Proof.
  intros Hc.
  destruct c as [| | |a eAct pProp| | | | | | | | | |]; try congruence;
    unfold_members;
    unfold isBusy, getStatus, genericRead, setLimitMin, setLimitMax,
      focusOnce, startFocusLoop, stopFocusLoop, device_write;
    repeat table_step.
Qed.

Lemma CreateProperty_table name v t ro act pre d :
  properties_ (CreateProperty name v t ro act pre d)
  = create_in (properties_ d) name (mkProperty t ro act pre None)
  /\ initialized_ (CreateProperty name v t ro act pre d) = initialized_ d.
Proof.
  unfold CreateProperty, create_in. destruct (properties_ d !! name); auto.
Qed.

Lemma create_in_taken (tbl : gmap string Property) n q :
  is_Some (tbl !! n) -> create_in tbl n q = tbl.
Proof. intros [p Hp]. unfold create_in. now rewrite Hp. Qed.

Lemma create_in_registered (tbl : gmap string Property) n q :
  is_Some (create_in tbl n q !! n).
Proof.
  unfold create_in. destruct (tbl !! n) eqn:Hn; [rewrite Hn; eauto|].
  rewrite lookup_insert_eq. eauto.
Qed.

Lemma create_in_lookup (tbl : gmap string Property) n q name p :
  tbl !! name = Some p -> create_in tbl n q !! name = Some p.
Proof.
  intros H. unfold create_in. destruct (tbl !! n) eqn:Hn; [exact H|].
  rewrite lookup_insert_ne; [exact H | congruence].
Qed.

Lemma initialized_table_registered :
  is_Some (initialized_table !! "Limit Min [mm]")
  /\ is_Some (initialized_table !! "Limit Max [mm]").
Proof.
  unfold initialized_table. split.
  - destruct (create_in_registered (properties_ WdiAutofocus_ctor) "Limit Min [mm]"
                (mkProperty MM.Float false (Some ActLimitMinGetSet) false None))
      as [p Hp].
    exists p. now apply create_in_lookup.
  - apply create_in_registered.
Qed.

Lemma limit_properties_created (tbl : gmap string Property) :
  tbl = properties_ WdiAutofocus_ctor \/ tbl = initialized_table ->
  create_in (create_in tbl "Limit Min [mm]"
               (mkProperty MM.Float false (Some ActLimitMinGetSet) false None))
    "Limit Max [mm]" (mkProperty MM.Float false (Some ActLimitMaxGetSet) false None)
  = initialized_table.
Proof.
  intros [-> | ->]; [unfold initialized_table; reflexivity|].
  destruct initialized_table_registered as [Hmin Hmax].
  rewrite (create_in_taken initialized_table "Limit Min [mm]"
             (mkProperty MM.Float false (Some ActLimitMinGetSet) false None) Hmin).
  exact (create_in_taken initialized_table "Limit Max [mm]"
           (mkProperty MM.Float false (Some ActLimitMaxGetSet) false None) Hmax).
Qed.

(** *** The property handlers *)

Lemma guarded_config {L} (body : M L unit) :
  keeps config_kept body ->
  keeps config_kept (handleException (call ensureConnected; body)).
Proof. intros Hb. repeat first [apply ensureConnected_config | assumption | config_step]. Qed.

Lemma LimitMinGetSet_AfterSet_member env (s : St spec_float) :
  limitMin_ (dev (snd (LimitMinGetSet MM.AfterSet env s))) = locals s.
Proof.
  unfold LimitMinGetSet. unfold bind at 1 2 3. unfold get_local at 1, this at 1, assign at 1. simpl.
  destruct (negb (Float64.eqb (limitMin_ (dev s)) (locals s))); [|reflexivity].
  match goal with |- context [handleException ?w env ?s0] =>
    assert (Hw : keeps config_kept (handleException w))
      by (unfold setLimitMin, device_write;
          repeat first [apply ensureConnected_config | config_step]);
    specialize (Hw env s0)
  end.
  unfold config_kept, configuration in Hw. simpl in Hw. congruence.
Qed.

Lemma LimitMaxGetSet_AfterSet_member env (s : St spec_float) :
  limitMax_ (dev (snd (LimitMaxGetSet MM.AfterSet env s))) = locals s.
Proof.
  unfold LimitMaxGetSet. unfold bind at 1 2 3. unfold get_local at 1, this at 1, assign at 1. simpl.
  destruct (negb (Float64.eqb (limitMax_ (dev s)) (locals s))); [|reflexivity].
  match goal with |- context [handleException ?w env ?s0] =>
    assert (Hw : keeps config_kept (handleException w))
      by (unfold setLimitMax, device_write;
          repeat first [apply ensureConnected_config | config_step]);
    specialize (Hw env s0)
  end.
  unfold config_kept, configuration in Hw. simpl in Hw. congruence.
Qed.

Lemma AfterSet_member {L} a v env (s : St L) :
  value_fits a v = true ->
  member_of a (dev (snd (apply_action a MM.AfterSet v env s))) = v.
Proof.
  intros Hf. destruct a; destruct v; try discriminate; unfold apply_action, member_of.
  1-6: unfold PortGetSet, WdiHostGetSet, WdiPortGetSet, FocusAddressGetSet,
         FocusAxisGetSet, ObjectiveTurretAddressGetSet, resetConnection;
       unfold_cpp; simpl; destruct (initialized_ (dev s)); reflexivity.
  - unfold bind, with_local.
    pose proof (LimitMinGetSet_AfterSet_member env (mkSt (dev s) (trace s) f)) as H.
    destruct (LimitMinGetSet MM.AfterSet env (mkSt (dev s) (trace s) f)) as [[r|e] s1];
      simpl in *; now rewrite H.
  - unfold bind, with_local.
    pose proof (LimitMaxGetSet_AfterSet_member env (mkSt (dev s) (trace s) f)) as H.
    destruct (LimitMaxGetSet MM.AfterSet env (mkSt (dev s) (trace s) f)) as [[r|e] s1];
      simpl in *; now rewrite H.
Qed.

Lemma BeforeGet_member {L} a v0 env (s : St L) :
  value_fits a v0 = true ->
  apply_action a MM.BeforeGet v0 env s = (Ok (DEVICE_OK, member_of a (dev s)), s).
Proof.
  intros Hf. destruct s as [d tr l].
  destruct a; destruct v0; try discriminate; reflexivity.
Qed.

(** X5: a property read returns what the last write of that property
    stored: after [AfterSet] with a value, [BeforeGet] yields [DEVICE_OK]
    and that value, for each of the eight properties, whatever the
    transport answered to the write, a failed push of a limit included. *)
Theorem X5_property_get_after_set :
  forall (a : Action) (v v0 : PropValue) (env env' : Env) (s : St unit),
    value_fits a v = true ->
    value_fits a v0 = true ->
    fst (apply_action a MM.BeforeGet v0 env'
           (snd (apply_action a MM.AfterSet v env s)))
    = Ok (DEVICE_OK, v).
Proof.
  intros a v v0 env env' s Hv Hv0.
  rewrite (BeforeGet_member a v0 env' _ Hv0). simpl.
  now rewrite (AfterSet_member a v env s Hv).
Qed.

Lemma X5_property_get_after_set_witness :
  fst (apply_action ActLimitMinGetSet MM.BeforeGet (VFloat S754_nan) reachable_env
         (snd (apply_action ActLimitMinGetSet MM.AfterSet (VFloat two_and_a_half)
                 failing_writes_env (start initialized_dev tt))))
  = Ok (DEVICE_OK, VFloat two_and_a_half).
Proof.
  apply (X5_property_get_after_set ActLimitMinGetSet (VFloat two_and_a_half)
           (VFloat S754_nan) failing_writes_env reachable_env
           (start initialized_dev tt)); reflexivity.
Defined.

(** X6: an action called for anything but a write touches nothing: the
    object and the trace are as before, so that no property read, the
    limits included, reaches the device; [BeforeGet] hands back the member
    and the other action types leave the value as it is; the code is
    [DEVICE_OK]. *)
Theorem X6_property_read_is_pure :
  forall (a : Action) (eAct : MM.ActionType) (v : PropValue) (env : Env) (s : St unit),
    value_fits a v = true ->
    eAct <> MM.AfterSet ->
    apply_action a eAct v env s
    = (Ok (DEVICE_OK, match eAct with
                      | MM.BeforeGet => member_of a (dev s)
                      | _ => v
                      end), s).
Proof.
  intros a eAct v env [d tr []] Hf Hne.
  destruct eAct; try congruence;
    destruct a; destruct v; try discriminate; reflexivity.
Qed.

Lemma X6_property_read_is_pure_witness :
  apply_action ActLimitMaxGetSet MM.BeforeGet (VFloat S754_nan) failing_reads_env
    (start initialized_dev tt)
  = (Ok (DEVICE_OK, VFloat (Float64.of_int 3)), start initialized_dev tt).
Proof.
  rewrite (X6_property_read_is_pure ActLimitMaxGetSet MM.BeforeGet (VFloat S754_nan)
             failing_reads_env (start initialized_dev tt));
    [vm_compute; reflexivity | reflexivity | discriminate].
Defined.

(** *** [Initialize] and [Shutdown] *)

(** [ensureConnected] when it will succeed: the calls it makes, and what
    it leaves alone. *)
Lemma ensureConnected_reaches {L} env (s : St L) :
  reaches env (dev s) ->
  exists d1, ensureConnected env s
             = (Ok tt, mkSt d1 (trace s ++ connection_calls_from (dev s)) (locals s))
             /\ configuration d1 = configuration (dev s)
             /\ connection_ d1 <> None.
Proof.
  intros H. unfold connection_calls_from.
  destruct (connection_ (dev s)) as [c|] eqn:Hc.
  - exists (dev s). rewrite (ensureConnected_connected env s c Hc), app_nil_r.
    destruct s; simpl in *. repeat split. congruence.
  - destruct H as [H|H]; [congruence|].
    destruct (tcp_opens env (wdiHost_ (dev s)) (wdiPort_ (dev s))) as [id|] eqn:Ht.
    + exists (established (dev s) id).
      rewrite (ensureConnected_establishes env s id Hc Ht H).
      repeat split. discriminate.
    + unfold connects in H. rewrite Ht, andb_false_r in H. discriminate.
Qed.

Lemma initialize_closure_table {L} : keeps table_kept (@handleException L initialize_closure).
Proof. unfold initialize_closure, getStatus, settingsGet. repeat table_step. Qed.

Lemma code_eqb_OK r : code_eqb r DEVICE_OK = true <-> r = DEVICE_OK.
Proof. destruct r; simpl; split; congruence. Qed.

(** [Initialize], by cases: already initialised; the closure returned; the
    closure failed. *)
Lemma Initialize_cases {L} env (s : St L) :
  (initialized_ (dev s) = true /\ Initialize env s = (Ok DEVICE_OK, s))
  \/ (initialized_ (dev s) = false
      /\ exists r s1,
           handleException initialize_closure env s = (Ok r, s1)
           /\ ((r = DEVICE_OK
                /\ Initialize env s
                   = (Ok DEVICE_OK,
                      mkSt (initialize_done (dev s1)) (trace s1) (locals s1)))
               \/ (r <> DEVICE_OK /\ Initialize env s = (Ok r, s1)))).
Proof.
  change (@Initialize L) with
    (do d <- @this L;
     if initialized_ d then ret DEVICE_OK
     else
       do r <- handleException initialize_closure;
       if negb (code_eqb r DEVICE_OK) then ret r
       else
         do d <- this;
         call assign (CreateFloatProperty "Limit Min [mm]" (limitMin_ d) false
                        (Some ActLimitMinGetSet) false);
         do d <- this;
         call assign (CreateFloatProperty "Limit Max [mm]" (limitMax_ d) false
                        (Some ActLimitMaxGetSet) false);
         do r <- UpdateStatus;
         if negb (code_eqb r DEVICE_OK) then ret r
         else if code_eqb r DEVICE_OK
              then call assign (set_initialized_ true); ret DEVICE_OK
              else ret r).
  unfold bind, this, UpdateStatus, ret, assign. simpl.
  destruct (initialized_ (dev s)) eqn:Hi; [left; auto | right].
  split; [reflexivity|].
  destruct (returns_handleException (@initialize_closure L) env s) as [r [s1 Hr]].
  exists r, s1. rewrite Hr. split; [reflexivity|].
  destruct r as [|e]; simpl; [left | right]; split; try reflexivity.
  discriminate.
Qed.

(** X7: [Initialize] returns [DEVICE_OK] exactly when the adapter is
    initialised afterwards; when it returns anything else, that is the
    code of a failure and the property table is as before, so that the
    limit properties do not exist. *)
Theorem X7_initialize_ok_iff_initialized :
  forall (env : Env) (s : St unit),
    let r := Initialize env s in
    (fst r = Ok DEVICE_OK <-> initialized_ (dev (snd r)) = true)
    /\ (fst r <> Ok DEVICE_OK ->
        properties_ (dev (snd r)) = properties_ (dev s)
        /\ exists e, fst r = Ok (DEVICE_ERR e)).
Proof.
  intros env s. cbv zeta.
  destruct (Initialize_cases env s)
    as [[Hi ->] | [Hi [r [s1 [Hr [[-> ->] | [Hne ->]]]]]]]; simpl.
  - split; [split; auto | intros H; now contradiction H].
  - split; [split; auto | intros H; now contradiction H].
  - pose proof (@initialize_closure_table unit env s) as Hw. rewrite Hr in Hw.
    destruct Hw as [Hp Hi']. simpl in Hp, Hi'.
    assert (Hf : initialized_ (dev s1) = false).
    { destruct (initialized_ (dev s1)); [|reflexivity].
      rewrite Hi in Hi'. now discriminate Hi'. }
    split; [split; congruence |].
    intros _. split; [exact Hp|]. destruct r; [congruence | eauto].
Qed.

Lemma initialize_closure_run {L} env (s : St L) :
  reaches env (dev s) ->
  exists d1,
    configuration d1 = configuration (dev s)
    /\ connection_ d1 <> None
    /\ let tr1 := trace s ++ connection_calls_from (dev s) in
       initialize_closure env s =
       match status_inFocus env with
       | None => (Throw DeviceCommunicationError,
                  mkSt d1 (tr1 ++ [EvGetStatus]) (locals s))
       | Some _ =>
           match settings_get env "motion.tracking.limit.min" with
           | None => (Throw DeviceCommunicationError,
                      mkSt d1 (tr1 ++ firstn 2 initialize_reads) (locals s))
           | Some lo =>
               let d2 := set_limitMin_ (Float64.div lo xLdaNativePerMm) d1 in
               match settings_get env "motion.tracking.limit.max" with
               | None => (Throw DeviceCommunicationError,
                          mkSt d2 (tr1 ++ initialize_reads) (locals s))
               | Some hi =>
                   (Ok tt, mkSt (set_limitMax_ (Float64.div hi xLdaNativePerMm) d2)
                             (tr1 ++ initialize_reads) (locals s))
               end
           end
       end.
Proof.
  intros H. destruct (ensureConnected_reaches env s H) as [d1 [He [Hcfg Hconn]]].
  exists d1. split; [exact Hcfg | split; [exact Hconn |]]. cbv zeta.
  unfold initialize_closure, getStatus, settingsGet. unfold_cpp. rewrite He. simpl.
  destruct (status_inFocus env); simpl; [|reflexivity].
  destruct (settings_get env "motion.tracking.limit.min"); simpl;
    [|now rewrite <- !app_assoc].
  destruct (settings_get env "motion.tracking.limit.max"); simpl;
    now rewrite <- !app_assoc.
Qed.

Lemma initialize_done_members d :
  initialized_ (initialize_done d) = true
  /\ limitMin_ (initialize_done d) = limitMin_ d
  /\ limitMax_ (initialize_done d) = limitMax_ d
  /\ connection_ (initialize_done d) = connection_ d.
Proof.
  unfold initialize_done, CreateFloatProperty, CreateProperty. cbv zeta.
  repeat match goal with |- context [match ?x with _ => _ end] => destruct x end;
    repeat split.
Qed.

(** X8: on an adapter that is not initialised, when the connection can be
    had and the status and both limit settings can be read, [Initialize]
    returns [DEVICE_OK], makes the connection calls if there was no
    connection and then exactly its three reads, stores each limit as the
    setting divided by [xLdaNativePerMm], and leaves the adapter
    initialised and connected. *)
Theorem X8_initialize_reads_limits :
  forall (env : Env) (s : St unit) (inFocus : bool) (lo hi : spec_float),
    initialized_ (dev s) = false ->
    reaches env (dev s) ->
    status_inFocus env = Some inFocus ->
    settings_get env "motion.tracking.limit.min" = Some lo ->
    settings_get env "motion.tracking.limit.max" = Some hi ->
    let r := Initialize env s in
    fst r = Ok DEVICE_OK
    /\ trace (snd r) = trace s ++ connection_calls_from (dev s) ++ initialize_reads
    /\ limitMin_ (dev (snd r)) = Float64.div lo xLdaNativePerMm
    /\ limitMax_ (dev (snd r)) = Float64.div hi xLdaNativePerMm
    /\ initialized_ (dev (snd r)) = true
    /\ connection_ (dev (snd r)) <> None.
Proof.
  intros env s f lo hi Hi Hreach Hs Hlo Hhi. cbv zeta.
  destruct (initialize_closure_run env s Hreach) as [d1 [Hcfg [Hconn Hrun]]].
  cbv zeta in Hrun. rewrite Hs, Hlo, Hhi in Hrun.
  destruct (Initialize_cases env s)
    as [[Hi' _] | [_ [r [s1 [Hr H]]]]]; [congruence|].
  rewrite handleException_spec, Hrun in Hr. simpl in Hr. injection Hr as <- <-.
  destruct H as [[_ ->] | [Hne _]]; [|congruence]. cbn [fst snd dev trace locals].
  destruct (initialize_done_members
              (set_limitMax_ (Float64.div hi xLdaNativePerMm)
                 (set_limitMin_ (Float64.div lo xLdaNativePerMm) d1)))
    as [-> [-> [-> ->]]].
  simpl. rewrite <- app_assoc. repeat split. exact Hconn.
Qed.

Lemma X8_initialize_reads_limits_witness :
  fst (Initialize reachable_env (start WdiAutofocus_ctor tt)) = Ok DEVICE_OK
  /\ limitMin_ (dev (snd (Initialize reachable_env (start WdiAutofocus_ctor tt))))
     = Float64.div (Float64.of_int 3000000) xLdaNativePerMm
  /\ Float64.div (Float64.of_int 3000000) xLdaNativePerMm = Float64.of_int 3.
Proof.
  assert (Hi : initialized_ (dev (start WdiAutofocus_ctor tt)) = false)
    by (vm_compute; reflexivity).
  assert (Hr : reaches reachable_env (dev (start WdiAutofocus_ctor tt)))
    by (right; vm_compute; reflexivity).
  pose proof (X8_initialize_reads_limits reachable_env (start WdiAutofocus_ctor tt)
                true (Float64.of_int 3000000) (Float64.of_int 3000000)
                Hi Hr eq_refl eq_refl eq_refl) as T.
  cbv zeta in T. destruct T as [Hok [_ [Hlo _]]].
  split; [exact Hok | split; [exact Hlo | vm_compute; reflexivity]].
Defined.

(** X9: an [Initialize] whose first limit read succeeds and whose second
    fails is a failed [Initialize] that has already replaced [limitMin_]:
    it returns [DeviceCommunicationError] and leaves the adapter not
    initialised and [limitMax_] as it was, but [limitMin_] holds the value
    read from the device. *)
Theorem X9_initialize_partial_limits :
  forall (env : Env) (s : St unit) (inFocus : bool) (lo : spec_float),
    initialized_ (dev s) = false ->
    reaches env (dev s) ->
    status_inFocus env = Some inFocus ->
    settings_get env "motion.tracking.limit.min" = Some lo ->
    settings_get env "motion.tracking.limit.max" = None ->
    let r := Initialize env s in
    fst r = Ok (DEVICE_ERR DeviceCommunicationError)
    /\ initialized_ (dev (snd r)) = false
    /\ limitMin_ (dev (snd r)) = Float64.div lo xLdaNativePerMm
    /\ limitMax_ (dev (snd r)) = limitMax_ (dev s)
    /\ properties_ (dev (snd r)) = properties_ (dev s).
Proof.
  intros env s f lo Hi Hreach Hs Hlo Hhi. cbv zeta.
  destruct (initialize_closure_run env s Hreach) as [d1 [Hcfg [Hconn Hrun]]].
  cbv zeta in Hrun. rewrite Hs, Hlo, Hhi in Hrun.
  destruct (Initialize_cases env s)
    as [[Hi' _] | [_ [r [s1 [Hr H]]]]]; [congruence|].
  rewrite handleException_spec, Hrun in Hr. simpl in Hr. injection Hr as <- <-.
  destruct H as [[Hk _] | [_ ->]]; [discriminate|]. simpl.
  unfold configuration in Hcfg. injection Hcfg as Hi1 _ Hp _ _ _ _ _ _ Hmax.
  repeat split; congruence.
Qed.

Lemma X7_initialize_ok_iff_initialized_witness :
  fst (Initialize failing_reads_env (start WdiAutofocus_ctor tt)) <> Ok DEVICE_OK
  /\ properties_ (dev (snd (Initialize failing_reads_env (start WdiAutofocus_ctor tt))))
     = properties_ (dev (start WdiAutofocus_ctor tt)).
Proof.
  assert (H : fst (Initialize failing_reads_env (start WdiAutofocus_ctor tt))
              <> Ok DEVICE_OK) by (vm_compute; discriminate).
  split; [exact H |].
  exact (proj1 (proj2 (X7_initialize_ok_iff_initialized failing_reads_env
                         (start WdiAutofocus_ctor tt)) H)).
Defined.

Lemma X9_initialize_partial_limits_witness :
  fst (Initialize upper_limit_fails_env (start WdiAutofocus_ctor tt))
  = Ok (DEVICE_ERR DeviceCommunicationError)
  /\ initialized_ (dev (snd (Initialize upper_limit_fails_env (start WdiAutofocus_ctor tt))))
     = false
  /\ limitMin_ (dev (snd (Initialize upper_limit_fails_env (start WdiAutofocus_ctor tt))))
     = Float64.div (Float64.of_int 3000000) xLdaNativePerMm.
Proof.
  assert (Hi : initialized_ (dev (start WdiAutofocus_ctor tt)) = false)
    by (vm_compute; reflexivity).
  assert (Hr : reaches upper_limit_fails_env (dev (start WdiAutofocus_ctor tt)))
    by (right; vm_compute; reflexivity).
  pose proof (X9_initialize_partial_limits upper_limit_fails_env
                (start WdiAutofocus_ctor tt) true (Float64.of_int 3000000)
                Hi Hr eq_refl eq_refl eq_refl) as T.
  cbv zeta in T. destruct T as [H1 [H2 [H3 _]]]. auto.
Defined.




(** *** The property table over a history *)

Lemma table_kept_tracks b d d' :
  table_kept d d' -> table_tracks b d -> table_tracks b d'.
Proof.
  unfold table_kept, table_tracks. intros [Hp Hi] H. destruct b.
  - congruence.
  - destruct H as [H Hf]. split; [congruence|].
    destruct (initialized_ d'); [|reflexivity]. rewrite Hf in Hi. now discriminate Hi.
Qed.

Lemma initialize_done_table b d :
  table_tracks b d -> properties_ (initialize_done d) = initialized_table.
Proof.
  intros H. unfold initialize_done, CreateFloatProperty, set_initialized_.
  cbv zeta. cbn [properties_].
  rewrite !(proj1 (CreateProperty_table _ _ _ _ _ _ _)).
  apply limit_properties_created.
  unfold table_tracks in H. destruct b; [right; exact H | left; exact (proj1 H)].
Qed.

Lemma Initialize_tracks env (s : St unit) b :
  table_tracks b (dev s) ->
  table_tracks (b || returned_ok (fst (Initialize env s))) (dev (snd (Initialize env s))).
Proof.
  intros H.
  destruct (Initialize_cases env s)
    as [[Hi ->] | [Hi [r [s1 [Hr [[-> ->] | [Hne ->]]]]]]]; cbn [fst snd dev returned_ok].
  - rewrite orb_true_r. destruct b; [exact H|].
    destruct H as [_ Hf]. congruence.
  - rewrite orb_true_r. unfold table_tracks at 1.
    pose proof (@initialize_closure_table unit env s) as Hk. rewrite Hr in Hk.
    exact (initialize_done_table b (dev s1) (table_kept_tracks b _ _ Hk H)).
  - destruct r as [|e0]; [congruence|]. rewrite orb_false_r.
    pose proof (@initialize_closure_table unit env s) as Hk. rewrite Hr in Hk.
    exact (table_kept_tracks b _ _ Hk H).
Qed.

Lemma invoke_tracks (c : Call) env (s : St unit) b :
  table_tracks b (dev s) ->
  table_tracks (b || match c with
                     | CallInitialize => returned_ok (fst (Initialize env s))
                     | _ => false
                     end)
    (dev (snd (invoke c env s))).
Proof.
  intros H.
  assert (c = CallInitialize \/ c <> CallInitialize) as [-> | Hc]
    by (destruct c; solve [left; reflexivity | right; discriminate]).
  - pose proof (Initialize_tracks env s b H) as HI.
    unfold invoke. unfold bind.
    destruct (Initialize env s) as [[r|e] s1]; exact HI.
  - assert (Hf : match c with
                 | CallInitialize => returned_ok (fst (Initialize env s))
                 | _ => false
                 end = false) by (destruct c; congruence).
    rewrite Hf, orb_false_r.
    exact (table_kept_tracks b _ _ (invoke_table c Hc env s) H).
Qed.

Lemma run_calls_tracks (calls : list (Env * Call)) (s : St unit) b :
  table_tracks b (dev s) ->
  table_tracks (b || initialize_succeeded calls s) (dev (run_calls calls s)).
Proof.
  revert s b. induction calls as [|[env c] calls IH]; intros s b H.
  - cbn [initialize_succeeded run_calls fold_left]. now rewrite orb_false_r.
  - cbn [initialize_succeeded]. rewrite orb_assoc.
    exact (IH _ _ (invoke_tracks c env s b H)).
Qed.

Lemma ctor_table_has_no_limits :
  properties_ WdiAutofocus_ctor !! "Limit Min [mm]" = None
  /\ properties_ WdiAutofocus_ctor !! "Limit Max [mm]" = None.
Proof. split; vm_compute; reflexivity. Qed.

Lemma initialized_table_limits :
  initialized_table !! "Limit Min [mm]"
  = Some (mkProperty MM.Float false (Some ActLimitMinGetSet) false None)
  /\ initialized_table !! "Limit Max [mm]"
     = Some (mkProperty MM.Float false (Some ActLimitMaxGetSet) false None).
Proof. split; vm_compute; reflexivity. Qed.

(** X4: the property table follows the history of calls.  Whatever calls
    the host makes on a constructed adapter, and whatever the transport
    answers: as long as no [Initialize] of the history has returned
    [DEVICE_OK], the table is the constructor's and the adapter is not
    initialised; once one has, the table is the constructor's with the two
    limit properties added, and stays so, through [Shutdown] and further
    calls of [Initialize] too.  The two tables differ: the constructor's
    has neither limit property, the other has both, with their handlers.
    No call removes a property of the constructor or changes its type,
    action or bounds. *)
Theorem X4_property_table_is_fixed :
  forall calls : list (Env * Call),
    let s0 := start WdiAutofocus_ctor tt in
    let d := dev (run_calls calls s0) in
    (initialize_succeeded calls s0 = false ->
     properties_ d = properties_ WdiAutofocus_ctor /\ initialized_ d = false)
    /\ (initialize_succeeded calls s0 = true -> properties_ d = initialized_table)
    /\ properties_kept WdiAutofocus_ctor d
    /\ properties_ WdiAutofocus_ctor !! "Limit Min [mm]" = None
    /\ properties_ WdiAutofocus_ctor !! "Limit Max [mm]" = None
    /\ initialized_table !! "Limit Min [mm]"
       = Some (mkProperty MM.Float false (Some ActLimitMinGetSet) false None)
    /\ initialized_table !! "Limit Max [mm]"
       = Some (mkProperty MM.Float false (Some ActLimitMaxGetSet) false None).
Proof.
  intros calls s0 d.
  assert (H : table_tracks (initialize_succeeded calls s0) d).
  { apply (run_calls_tracks calls s0 false). split; reflexivity. }
  split; [intros Hb; rewrite Hb in H; exact H |].
  split; [intros Hb; rewrite Hb in H; exact H |].
  split.
  - intros name p Hp. unfold table_tracks in H.
    destruct (initialize_succeeded calls s0).
    + rewrite H. unfold initialized_table. now do 2 apply create_in_lookup.
    + destruct H as [-> _]. exact Hp.
  - destruct ctor_table_has_no_limits, initialized_table_limits. auto.
Qed.

Lemma X4_property_table_is_fixed_witness :
  properties_ (dev (run_calls [(failing_reads_env, CallInitialize); (reachable_env, CallBusy)]
                      (start WdiAutofocus_ctor tt)))
  = properties_ WdiAutofocus_ctor
  /\ properties_ (dev (run_calls [(failing_reads_env, CallInitialize);
                                   (reachable_env, CallInitialize);
                                   (reachable_env, CallShutdown)]
                         (start WdiAutofocus_ctor tt)))
     = initialized_table.
Proof.
  assert (H1 : initialize_succeeded
                 [(failing_reads_env, CallInitialize); (reachable_env, CallBusy)]
                 (start WdiAutofocus_ctor tt) = false) by (vm_compute; reflexivity).
  assert (H2 : initialize_succeeded
                 [(failing_reads_env, CallInitialize); (reachable_env, CallInitialize);
                  (reachable_env, CallShutdown)]
                 (start WdiAutofocus_ctor tt) = true) by (vm_compute; reflexivity).
  split.
  - exact (proj1 (proj1 (X4_property_table_is_fixed
                           [(failing_reads_env, CallInitialize); (reachable_env, CallBusy)])
                    H1)).
  - exact (proj1 (proj2 (X4_property_table_is_fixed
                           [(failing_reads_env, CallInitialize);
                            (reachable_env, CallInitialize);
                            (reachable_env, CallShutdown)])) H2).
Defined.

(** *** The commands and the connection *)

Lemma commands_app tr tr' : commands (tr ++ tr') = commands tr ++ commands tr'.
Proof. apply List.filter_app. Qed.

Lemma connection_calls_app tr tr' :
  connection_calls (tr ++ tr') = connection_calls tr ++ connection_calls tr'.
Proof. apply List.filter_app. Qed.

Lemma establishment_calls_commands d : commands (establishment_calls d) = [].
Proof. unfold establishment_calls. destruct (0 <? objectiveTurretAddress_ d); reflexivity. Qed.

Lemma connection_calls_from_commands d : commands (connection_calls_from d) = [].
Proof.
  unfold connection_calls_from.
  destruct (connection_ d); [reflexivity | apply establishment_calls_commands].
Qed.

(** [ensureConnected] commands nothing, whatever the endpoints answer. *)
Lemma ensureConnected_commands {L} env (s : St L) :
  commands (trace (snd (ensureConnected env s))) = commands (trace s).
Proof.
  unfold ensureConnected, onNewConnection, ZaberBase_onNewConnection,
    getConnection, openTcp, getDevice, getAxis.
  run_cpp; rewrite ?commands_app; simpl; rewrite ?app_nil_r; reflexivity.
Qed.

(** A device call behind [ensureConnected], when the connection exists or
    can be made. *)
Lemma guarded_write {L} ev ok env (s : St L) :
  reaches env (dev s) ->
  exists d1,
    handleException (call ensureConnected; device_write ev ok) env s
    = (Ok (if ok env then DEVICE_OK else DEVICE_ERR DeviceCommunicationError),
       mkSt d1 (trace s ++ connection_calls_from (dev s) ++ [ev]) (locals s))
    /\ configuration d1 = configuration (dev s)
    /\ connection_ d1 <> None.
Proof.
  intros H. destruct (ensureConnected_reaches env s H) as [d1 [Hrun [Hc Hn]]].
  exists d1. split; [|auto].
  rewrite handleException_spec. unfold bind at 1 2. rewrite Hrun.
  unfold device_write. unfold_cpp. simpl.
  destruct (ok env); simpl; now rewrite app_assoc.
Qed.

(** Anything behind [ensureConnected], when the connection cannot be made. *)
Lemma guarded_unreachable {L} (body : M L unit) env (s : St L) :
  connection_ (dev s) = None ->
  connects env (dev s) = false ->
  handleException (call ensureConnected; body) env s
  = (Ok (DEVICE_ERR ConnectionError), snd (ensureConnected env s)).
Proof.
  intros Hc Hn. rewrite handleException_spec. unfold bind.
  pose proof (connects_false_Throw env s Hc Hn) as Ht.
  destruct (ensureConnected env s) as [[[]|e] s1]; simpl in *; congruence.
Qed.

Lemma ensureConnected_unreachable {L} env (s : St L) :
  connection_ (dev s) = None ->
  connects env (dev s) = false ->
  connection_ (dev (snd (ensureConnected env s))) = None.
Proof.
  intros Hc Hn.
  exact (proj2 (ensureConnected_Throw env s _ (connects_false_Throw env s Hc Hn))).
Qed.

Lemma focus_command_closure (op : M unit code) ev :
  In (op, ev) focus_commands ->
  op = handleException (call ensureConnected; device_write ev focus_ok).
Proof.
  simpl. intros [H | [H | [H | [H | []]]]]; inversion H; reflexivity.
Qed.

(** X11: each focus command ([FullFocus], [IncrementalFocus],
    [SetContinuousFocusing] on and off) sends its one device command exactly
    when the connection exists or can be made, and then returns [DEVICE_OK]
    or, when the device refuses, [DeviceCommunicationError]; when the
    connection is absent and cannot be made it returns [ConnectionError],
    commands nothing and stays disconnected. *)
Theorem X11_focus_commands_once :
  forall (op : M unit code) (ev : Event) (env : Env) (s : St unit),
    In (op, ev) focus_commands ->
    (reaches env (dev s) ->
     fst (op env s)
     = Ok (if focus_ok env then DEVICE_OK else DEVICE_ERR DeviceCommunicationError)
     /\ commands (trace (snd (op env s))) = commands (trace s) ++ [ev]
     /\ connection_ (dev (snd (op env s))) <> None)
    /\ (connection_ (dev s) = None -> connects env (dev s) = false ->
        fst (op env s) = Ok (DEVICE_ERR ConnectionError)
        /\ commands (trace (snd (op env s))) = commands (trace s)
        /\ connection_ (dev (snd (op env s))) = None).
Proof.
  intros op ev env s Hin. rewrite (focus_command_closure op ev Hin). split.
  - intros H. destruct (guarded_write ev focus_ok env s H) as [d1 [-> [_ Hn]]].
    cbn [fst snd trace dev]. split; [reflexivity | split; [|exact Hn]].
    rewrite !commands_app, connection_calls_from_commands.
    assert (He : commands [ev] = [ev]).
    { simpl in Hin. destruct Hin as [H0 | [H0 | [H0 | [H0 | []]]]];
        inversion H0; reflexivity. }
    now rewrite He.
  - intros Hc Hn. rewrite guarded_unreachable by assumption. cbn [fst snd].
    split; [reflexivity | split].
    + apply ensureConnected_commands.
    + now apply ensureConnected_unreachable.
Qed.

Lemma X11_focus_commands_once_witness :
  fst (FullFocus reachable_env (start WdiAutofocus_ctor tt)) = Ok DEVICE_OK
  /\ commands (trace (snd (FullFocus reachable_env (start WdiAutofocus_ctor tt))))
     = [EvFocusOnce true]
  /\ fst (FullFocus unreachable_env (start WdiAutofocus_ctor tt))
     = Ok (DEVICE_ERR ConnectionError)
  /\ commands (trace (snd (FullFocus unreachable_env (start WdiAutofocus_ctor tt)))) = [].
Proof.
  assert (Hr : reaches reachable_env (dev (start WdiAutofocus_ctor tt)))
    by (right; vm_compute; reflexivity).
  assert (Hc : connection_ (dev (start WdiAutofocus_ctor tt)) = None)
    by (vm_compute; reflexivity).
  assert (Hn : connects unreachable_env (dev (start WdiAutofocus_ctor tt)) = false)
    by (vm_compute; reflexivity).
  pose proof (X11_focus_commands_once FullFocus (EvFocusOnce true) reachable_env
                (start WdiAutofocus_ctor tt) (or_introl eq_refl)) as [T1 _].
  pose proof (X11_focus_commands_once FullFocus (EvFocusOnce true) unreachable_env
                (start WdiAutofocus_ctor tt) (or_introl eq_refl)) as [_ T2].
  destruct (T1 Hr) as [H1 [H2 _]]. destruct (T2 Hc Hn) as [H3 [H4 _]].
  repeat split; assumption.
Defined.

(** A read behind [ensureConnected] that stores its answer in the frame. *)
Lemma guarded_isBusy env (s : St bool) b :
  reaches env (dev s) ->
  axis_busy env = Some b ->
  exists d1,
    handleException (call ensureConnected; do b <- isBusy; set_local b) env s
    = (Ok DEVICE_OK, mkSt d1 (trace s ++ connection_calls_from (dev s) ++ [EvIsBusy]) b)
    /\ configuration d1 = configuration (dev s)
    /\ connection_ d1 <> None.
Proof.
  intros H Hb. destruct (ensureConnected_reaches env s H) as [d1 [Hrun [Hc Hn]]].
  exists d1. split; [|auto].
  rewrite handleException_spec. unfold bind at 1 3. rewrite Hrun.
  unfold isBusy. unfold_cpp. simpl. rewrite Hb. simpl. now rewrite app_assoc.
Qed.

(** X12: when the busy flag of the axis can be read, [GetContinuousFocusing]
    returns [DEVICE_OK] and reports that flag, the value [Busy] returns; it
    makes the one read [isBusy] after the connection calls, if any.  What
    [SetContinuousFocusing] was last asked for plays no part: after a
    [SetContinuousFocusing state], accepted or refused by the device, the
    state read back is still the busy flag. *)
Theorem X12_continuous_focusing_is_busy :
  forall (env : Env) (s : St unit) (state0 state : bool) (b : bool),
    reaches env (dev s) ->
    axis_busy env = Some b ->
    let r := GetContinuousFocusing env (mkSt (dev s) (trace s) state0) in
    let s1 := snd (SetContinuousFocusing state env s) in
    let r1 := GetContinuousFocusing env (mkSt (dev s1) (trace s1) state0) in
    fst r = Ok DEVICE_OK
    /\ locals (snd r) = b
    /\ trace (snd r) = trace s ++ connection_calls_from (dev s) ++ [EvIsBusy]
    /\ fst (Busy env s) = Ok b
    /\ fst r1 = Ok DEVICE_OK
    /\ locals (snd r1) = b
    /\ trace (snd r1) = trace s1 ++ [EvIsBusy].
Proof.
  intros env s state0 state b H Hb. cbv zeta.
  destruct (guarded_isBusy env (mkSt (dev s) (trace s) state0) b H Hb)
    as [d1 [Hrun _]].
  destruct (guarded_isBusy env (mkSt (dev s) (trace s) false) b H Hb)
    as [d2 [Hrun2 _]].
  unfold GetContinuousFocusing at 1 2 3. rewrite Hrun. cbn [fst snd locals trace dev].
  do 3 (split; [reflexivity |]).
  split.
  { unfold Busy. unfold bind at 1. unfold with_local. rewrite Hrun2.
    unfold ret. simpl. now destruct b. }
  assert (Hs1 : exists d3 tr3, SetContinuousFocusing state env s
                               = (Ok (if focus_ok env then DEVICE_OK
                                      else DEVICE_ERR DeviceCommunicationError),
                                  mkSt d3 tr3 tt)
                               /\ connection_ d3 <> None).
  { unfold SetContinuousFocusing.
    destruct (guarded_write (if state then EvStartFocusLoop else EvStopFocusLoop)
                focus_ok env s H) as [d3 [Hw [_ Hn]]].
    exists d3. destruct s as [d tr []].
    destruct state; eexists; (split; [|exact Hn]);
      unfold startFocusLoop, stopFocusLoop; exact Hw. }
  destruct Hs1 as [d3 [tr3 [-> Hn3]]]. cbn [snd dev trace].
  assert (H3 : reaches env (dev (mkSt d3 tr3 state0))) by (left; exact Hn3).
  destruct (guarded_isBusy env (mkSt d3 tr3 state0) b H3 Hb) as [d4 [Hrun4 _]].
  unfold GetContinuousFocusing. rewrite Hrun4. cbn [fst snd locals trace dev].
  unfold connection_calls_from. destruct (connection_ d3); [|congruence].
  auto.
Qed.

Lemma X12_continuous_focusing_is_busy_witness :
  fst (SetContinuousFocusing true idle_axis_env (start initialized_dev tt)) = Ok DEVICE_OK
  /\ fst (GetContinuousFocusing idle_axis_env
            (mkSt (dev (snd (SetContinuousFocusing true idle_axis_env
                               (start initialized_dev tt))))
                  (trace (snd (SetContinuousFocusing true idle_axis_env
                                 (start initialized_dev tt))))
                  true))
     = Ok DEVICE_OK
  /\ locals (snd (GetContinuousFocusing idle_axis_env
            (mkSt (dev (snd (SetContinuousFocusing true idle_axis_env
                               (start initialized_dev tt))))
                  (trace (snd (SetContinuousFocusing true idle_axis_env
                                 (start initialized_dev tt))))
                  true)))
     = false.
Proof.
  assert (Hr : reaches idle_axis_env (dev (start initialized_dev tt)))
    by (left; vm_compute; discriminate).
  assert (Hs : fst (SetContinuousFocusing true idle_axis_env (start initialized_dev tt))
               = Ok DEVICE_OK) by (vm_compute; reflexivity).
  pose proof (X12_continuous_focusing_is_busy idle_axis_env (start initialized_dev tt)
                true true false Hr eq_refl) as T.
  cbv zeta in T. destruct T as [_ [_ [_ [_ [H1 [H2 _]]]]]].
  split; [exact Hs | split; assumption].
Defined.

(** *** The soft limits, off the happy path *)

Lemma LimitMinGetSet_AfterSet_locals env (s : St spec_float) :
  locals (snd (LimitMinGetSet MM.AfterSet env s)) = locals s.
Proof.
  unfold LimitMinGetSet. unfold bind at 1 2 3.
  unfold get_local at 1, this at 1, assign at 1. simpl.
  destruct (negb (Float64.eqb (limitMin_ (dev s)) (locals s))); [|reflexivity].
  rewrite handleException_spec. cbn [snd]. unfold bind at 1.
  match goal with |- context [ensureConnected env ?s0] =>
    pose proof (ensureConnected_locals env s0) as Hl;
    destruct (ensureConnected env s0) as [[[]|e] s1]
  end; simpl in *; [|assumption].
  unfold setLimitMin, device_write. unfold_cpp. simpl.
  destruct (limit_write_ok env); assumption.
Qed.

Lemma LimitMaxGetSet_AfterSet_locals env (s : St spec_float) :
  locals (snd (LimitMaxGetSet MM.AfterSet env s)) = locals s.
Proof.
  unfold LimitMaxGetSet. unfold bind at 1 2 3.
  unfold get_local at 1, this at 1, assign at 1. simpl.
  destruct (negb (Float64.eqb (limitMax_ (dev s)) (locals s))); [|reflexivity].
  rewrite handleException_spec. cbn [snd]. unfold bind at 1.
  match goal with |- context [ensureConnected env ?s0] =>
    pose proof (ensureConnected_locals env s0) as Hl;
    destruct (ensureConnected env s0) as [[[]|e] s1]
  end; simpl in *; [|assumption].
  unfold setLimitMax, device_write. unfold_cpp. simpl.
  destruct (limit_write_ok env); assumption.
Qed.

Lemma set_limitMin_same d : set_limitMin_ (limitMin_ d) d = d.
Proof. now destruct d. Qed.

Lemma set_limitMax_same d : set_limitMax_ (limitMax_ d) d = d.
Proof. now destruct d. Qed.

(** X13: a limit write is never retried.  The handler stores the new value
    before it pushes it, so whatever became of the first write, a push
    refused by the device or a connection that could not be made included,
    a second write of the same value (any value but NaN, which differs
    from itself) compares equal, returns [DEVICE_OK], calls nothing and
    leaves the object as the first write left it. *)
Theorem X13_limit_write_is_not_retried :
  forall (env env' : Env) (s : St spec_float),
    Float64.eqb (locals s) (locals s) = true ->
    (let r1 := LimitMinGetSet MM.AfterSet env s in
     let r2 := LimitMinGetSet MM.AfterSet env' (snd r1) in
     fst r2 = Ok DEVICE_OK /\ snd r2 = snd r1)
    /\
    (let r1 := LimitMaxGetSet MM.AfterSet env s in
     let r2 := LimitMaxGetSet MM.AfterSet env' (snd r1) in
     fst r2 = Ok DEVICE_OK /\ snd r2 = snd r1).
Proof.
  intros env env' s Hv. cbv zeta. split.
  - pose proof (LimitMinGetSet_AfterSet_member env s) as Hm.
    pose proof (LimitMinGetSet_AfterSet_locals env s) as Hl.
    destruct (snd (LimitMinGetSet MM.AfterSet env s)) as [d1 tr1 l1]. simpl in Hm, Hl.
    rewrite LimitMinGetSet_AfterSet_equal by (simpl; congruence). simpl.
    split; [reflexivity|]. f_equal. rewrite Hl, <- Hm. apply set_limitMin_same.
  - pose proof (LimitMaxGetSet_AfterSet_member env s) as Hm.
    pose proof (LimitMaxGetSet_AfterSet_locals env s) as Hl.
    destruct (snd (LimitMaxGetSet MM.AfterSet env s)) as [d1 tr1 l1]. simpl in Hm, Hl.
    rewrite LimitMaxGetSet_AfterSet_equal by (simpl; congruence). simpl.
    split; [reflexivity|]. f_equal. rewrite Hl, <- Hm. apply set_limitMax_same.
Qed.

Lemma X13_limit_write_is_not_retried_witness :
  fst (LimitMinGetSet MM.AfterSet failing_writes_env (start initialized_dev two_and_a_half))
  = Ok (DEVICE_ERR DeviceCommunicationError)
  /\ fst (LimitMinGetSet MM.AfterSet reachable_env
            (snd (LimitMinGetSet MM.AfterSet failing_writes_env
                    (start initialized_dev two_and_a_half))))
     = Ok DEVICE_OK
  /\ snd (LimitMinGetSet MM.AfterSet reachable_env
            (snd (LimitMinGetSet MM.AfterSet failing_writes_env
                    (start initialized_dev two_and_a_half))))
     = snd (LimitMinGetSet MM.AfterSet failing_writes_env
              (start initialized_dev two_and_a_half)).
Proof.
  assert (H1 : fst (LimitMinGetSet MM.AfterSet failing_writes_env
                      (start initialized_dev two_and_a_half))
               = Ok (DEVICE_ERR DeviceCommunicationError)) by (vm_compute; reflexivity).
  assert (Hv : Float64.eqb (locals (start initialized_dev two_and_a_half))
                 (locals (start initialized_dev two_and_a_half)) = true)
    by (vm_compute; reflexivity).
  pose proof (X13_limit_write_is_not_retried failing_writes_env reachable_env
                (start initialized_dev two_and_a_half) Hv) as [T _].
  cbv zeta in T. destruct T as [H2 H3]. repeat split; assumption.
Defined.

(** X14: a write of a new limit made while the connection is absent and
    cannot be made returns [ConnectionError]; the member holds the new
    value all the same, no write reaches the device, and the object stays
    disconnected. *)
Theorem X14_limit_write_unreachable :
  forall (env : Env) (s : St spec_float),
    connection_ (dev s) = None ->
    connects env (dev s) = false ->
    (Float64.eqb (limitMin_ (dev s)) (locals s) = false ->
     let r := LimitMinGetSet MM.AfterSet env s in
     fst r = Ok (DEVICE_ERR ConnectionError)
     /\ limitMin_ (dev (snd r)) = locals s
     /\ commands (trace (snd r)) = commands (trace s)
     /\ connection_ (dev (snd r)) = None)
    /\
    (Float64.eqb (limitMax_ (dev s)) (locals s) = false ->
     let r := LimitMaxGetSet MM.AfterSet env s in
     fst r = Ok (DEVICE_ERR ConnectionError)
     /\ limitMax_ (dev (snd r)) = locals s
     /\ commands (trace (snd r)) = commands (trace s)
     /\ connection_ (dev (snd r)) = None).
Proof.
  intros env s Hc Hn. split; intros Hne; cbv zeta.
  - assert (Hrun : LimitMinGetSet MM.AfterSet env s
                   = (Ok (DEVICE_ERR ConnectionError),
                      snd (ensureConnected env
                             (mkSt (set_limitMin_ (locals s) (dev s)) (trace s) (locals s))))).
    { unfold LimitMinGetSet. unfold bind at 1 2 3.
      unfold get_local at 1, this at 1, assign at 1. simpl. rewrite Hne. simpl.
      now rewrite guarded_unreachable by (simpl; assumption). }
    pose proof (LimitMinGetSet_AfterSet_member env s) as Hm.
    rewrite Hrun in *. cbn [fst snd] in *.
    split; [reflexivity | split; [exact Hm | split]].
    + now rewrite ensureConnected_commands.
    + apply ensureConnected_unreachable; simpl; assumption.
  - assert (Hrun : LimitMaxGetSet MM.AfterSet env s
                   = (Ok (DEVICE_ERR ConnectionError),
                      snd (ensureConnected env
                             (mkSt (set_limitMax_ (locals s) (dev s)) (trace s) (locals s))))).
    { unfold LimitMaxGetSet. unfold bind at 1 2 3.
      unfold get_local at 1, this at 1, assign at 1. simpl. rewrite Hne. simpl.
      now rewrite guarded_unreachable by (simpl; assumption). }
    pose proof (LimitMaxGetSet_AfterSet_member env s) as Hm.
    rewrite Hrun in *. cbn [fst snd] in *.
    split; [reflexivity | split; [exact Hm | split]].
    + now rewrite ensureConnected_commands.
    + apply ensureConnected_unreachable; simpl; assumption.
Qed.

Lemma X14_limit_write_unreachable_witness :
  fst (LimitMinGetSet MM.AfterSet unreachable_env (start disconnected_dev two_and_a_half))
  = Ok (DEVICE_ERR ConnectionError)
  /\ limitMin_ (dev (snd (LimitMinGetSet MM.AfterSet unreachable_env
                            (start disconnected_dev two_and_a_half))))
     = two_and_a_half
  /\ commands (trace (snd (LimitMinGetSet MM.AfterSet unreachable_env
                             (start disconnected_dev two_and_a_half))))
     = [].
Proof.
  assert (Hc : connection_ (dev (start disconnected_dev two_and_a_half)) = None)
    by (vm_compute; reflexivity).
  assert (Hn : connects unreachable_env (dev (start disconnected_dev two_and_a_half)) = false)
    by (vm_compute; reflexivity).
  assert (He : Float64.eqb (limitMin_ (dev (start disconnected_dev two_and_a_half)))
                 (locals (start disconnected_dev two_and_a_half)) = false)
    by (vm_compute; reflexivity).
  pose proof (X14_limit_write_unreachable unreachable_env
                (start disconnected_dev two_and_a_half) Hc Hn) as [T _].
  destruct (T He) as [H1 [H2 [H3 _]]]. repeat split; assumption.
Defined.

(** *** The connection is made once *)

Lemma connection_calls_snoc tr ev :
  is_connection_call ev = false -> connection_calls (tr ++ [ev]) = connection_calls tr.
Proof. intros H. rewrite connection_calls_app. simpl. rewrite H. apply app_nil_r. Qed.

Ltac quiet_trace :=
  cbn [trace snd fst dev locals];
  repeat (rewrite connection_calls_snoc by reflexivity);
  try reflexivity.

Lemma invoke_connected_quiet (c : Call) env (s : St unit) conn :
  connection_ (dev s) = Some conn ->
  connection_calls (trace (snd (invoke c env s))) = connection_calls (trace s).
Proof.
  intros Hc. destruct s as [d tr []]. simpl in Hc.
  destruct c; unfold_members.
  all: try (destruct a; destruct pProp); try destruct eAct.
  all: unfold isBusy, getStatus, settingsGet, genericRead, setLimitMin, setLimitMax,
         focusOnce, startFocusLoop, stopFocusLoop, device_write, UpdateStatus;
       unfold_cpp; cbn [dev trace locals fst snd].
  all: repeat (rewrite (ensureConnected_connected env _ conn) by (simpl; exact Hc)).
  all: repeat (break_match; cbn [dev trace locals fst snd] in *;
               repeat match goal with
                      | H : ensureConnected _ _ = _ |- _ =>
                          rewrite (ensureConnected_connected _ _ conn) in H
                            by (simpl; exact Hc)
                      end;
               inv_pairs; try discriminate).
  all: quiet_trace.
Qed.

Lemma invoke_connected_connection (c : Call) env (s : St unit) conn :
  connection_ (dev s) = Some conn ->
  connection_ (dev (snd (invoke c env s)))
  = if drops_connection c (dev s) then None else Some conn.
Proof.
  intros Hc. destruct s as [d tr []]. simpl in Hc.
  destruct c; unfold_members.
  all: try (destruct a; destruct pProp); try destruct eAct.
  all: unfold isBusy, getStatus, settingsGet, genericRead, setLimitMin, setLimitMax,
         focusOnce, startFocusLoop, stopFocusLoop, device_write, UpdateStatus,
         drops_connection, value_fits;
       unfold_cpp; cbn [dev trace locals fst snd].
  all: repeat (rewrite (ensureConnected_connected env _ conn) by (simpl; exact Hc)).
  all: repeat (break_match; cbn [dev trace locals fst snd] in *;
               repeat match goal with
                      | H : ensureConnected _ _ = _ |- _ =>
                          rewrite (ensureConnected_connected _ _ conn) in H
                            by (simpl; exact Hc)
                      end;
               inv_pairs; try discriminate).
  all: simpl; rewrite ?andb_false_r; try assumption; try reflexivity.
  all: try match goal with
           | H : _ && _ = true |- _ =>
               rewrite ?andb_false_r in H; simpl in H; discriminate H
           end.
  all: unfold CreateFloatProperty, CreateProperty; simpl;
       repeat (break_match; simpl); assumption.
Qed.

(** X15: a live connection is reused.  On a connected object no call of
    the API opens a connection or resolves a handle again, whatever the
    transport answers; and the call leaves that very connection in place,
    unless it is the write of a property other than the two limits on an
    initialised object, which drops it. *)
Theorem X15_live_connection_is_reused :
  forall (c : Call) (env : Env) (s : St unit) (conn : Connection),
    connection_ (dev s) = Some conn ->
    connection_calls (trace (snd (invoke c env s))) = connection_calls (trace s)
    /\ connection_ (dev (snd (invoke c env s)))
       = if drops_connection c (dev s) then None else Some conn.
Proof.
  intros c env s conn Hc. split.
  - exact (invoke_connected_quiet c env s conn Hc).
  - exact (invoke_connected_connection c env s conn Hc).
Qed.

Lemma X15_live_connection_is_reused_witness :
  connection_calls (trace (snd (invoke CallFullFocus failing_writes_env
                                  (start initialized_dev tt)))) = []
  /\ connection_ (dev (snd (invoke CallFullFocus failing_writes_env
                              (start initialized_dev tt))))
     = Some (mkConnection "Undefined").
Proof.
  assert (Hc : connection_ (dev (start initialized_dev tt))
               = Some (mkConnection "Undefined")) by (vm_compute; reflexivity).
  exact (X15_live_connection_is_reused CallFullFocus failing_writes_env
           (start initialized_dev tt) (mkConnection "Undefined") Hc).
Defined.

(** X16: [Initialize] is done once.  After an [Initialize] that returned
    [DEVICE_OK], a further [Initialize] returns [DEVICE_OK] at once: it
    calls nothing, whatever the transport would answer, and leaves the
    object, the limits read the first time included, as it is. *)
Theorem X16_initialize_once :
  forall (env env' : Env) (s : St unit),
    fst (Initialize env s) = Ok DEVICE_OK ->
    Initialize env' (snd (Initialize env s)) = (Ok DEVICE_OK, snd (Initialize env s)).
Proof.
  intros env env' s Hok.
  assert (Hi : initialized_ (dev (snd (Initialize env s))) = true).
  { destruct (Initialize_cases env s)
      as [[Hi ->] | [Hi [r [s1 [Hr [[-> ->] | [Hne Hrun]]]]]]].
    - exact Hi.
    - apply initialize_done_members.
    - rewrite Hrun in Hok. simpl in Hok. congruence. }
  destruct (Initialize_cases env' (snd (Initialize env s))) as [[_ H] | [Hf _]];
    [exact H | congruence].
Qed.

Lemma X16_initialize_once_witness :
  Initialize unreachable_env (snd (Initialize reachable_env (start WdiAutofocus_ctor tt)))
  = (Ok DEVICE_OK, snd (Initialize reachable_env (start WdiAutofocus_ctor tt))).
Proof.
  assert (H : fst (Initialize reachable_env (start WdiAutofocus_ctor tt)) = Ok DEVICE_OK)
    by (vm_compute; reflexivity).
  exact (X16_initialize_once reachable_env unreachable_env (start WdiAutofocus_ctor tt) H).
Defined.

(** *** The sign of the focus score *)

Lemma SFabs_binary_round_aux prec emax s m e l :
  SFabs (binary_round_aux prec emax s m e l) = binary_round_aux prec emax false m e l.
Proof.
  unfold binary_round_aux.
  destruct (shr_fexp prec emax m e l) as [mrs' e'].
  destruct (shr_fexp prec emax _ e' loc_Exact) as [mrs'' e''].
  destruct (shr_m mrs''); try reflexivity.
  destruct (e'' <=? emax - prec); reflexivity.
Qed.

Lemma SFabs_binary_round prec emax s m e :
  SFabs (binary_round prec emax s m e) = binary_round prec emax false m e.
Proof.
  unfold binary_round. destruct (shl_align m e _) as [mz ez].
  apply SFabs_binary_round_aux.
Qed.

Lemma SFabs_SFdiv prec emax x y :
  SFabs (SFdiv prec emax x y) = SFdiv prec emax (SFabs x) (SFabs y).
Proof.
  destruct x as [sx | sx | | sx mx ex]; destruct y as [sy | sy | | sy my ey];
    try reflexivity.
  simpl. destruct (SFdiv_core_binary prec emax (Z.pos mx) ex (Z.pos my) ey) as [[mz ez] lz].
  apply SFabs_binary_round_aux.
Qed.

Lemma SFabs_of_int_opp raw :
  SFabs (Float32.of_int (- raw)) = SFabs (Float32.of_int raw).
Proof.
  unfold Float32.of_int, binary_normalize.
  destruct raw; simpl; rewrite ?SFabs_binary_round; reflexivity.
Qed.

Lemma score_of_opp raw : score_of (- raw) = score_of raw.
Proof.
  unfold score_of, Float32.abs, Float32.div.
  now rewrite !SFabs_SFdiv, SFabs_of_int_opp.
Qed.

Lemma SFabs_score x :
  SFabs (Float64.of_float (Float32.abs x)) = Float64.of_float (Float32.abs x).
Proof.
  destruct x; simpl; try reflexivity. apply SFabs_binary_round.
Qed.

(** The score [GetCurrentFocusScore] writes is the absolute value of some
    [float], converted. *)
Lemma GetCurrentFocusScore_written position0 env (s : St spec_float) :
  exists position,
    locals (snd (GetCurrentFocusScore position0 env s))
    = Float64.of_float (Float32.abs position).
Proof.
  unfold GetCurrentFocusScore, ReadWdiPosition. unfold bind at 1 2. unfold with_local.
  match goal with |- context [handleException ?w env ?s0] =>
    destruct (returns_handleException w env s0) as [r [s1 Hr]]; rewrite Hr
  end.
  unfold set_local, ret. simpl. eauto.
Qed.

(** X17: the score [GetCurrentFocusScore] and [GetLastFocusScore] write
    never carries a sign, whatever the transport did and whatever the
    uninitialised local held: it is unchanged by [abs].  And the score is
    even in the reading: two reads that answer opposite readings write the
    same score. *)
Theorem X17_focus_score_has_no_sign :
  forall (env env' : Env) (s s' : St spec_float) (position0 position0' : spec_float),
    SFabs (locals (snd (GetCurrentFocusScore position0 env s)))
    = locals (snd (GetCurrentFocusScore position0 env s))
    /\ SFabs (locals (snd (GetLastFocusScore position0 env s)))
       = locals (snd (GetLastFocusScore position0 env s))
    /\ forall v v',
         reaches env (dev s) -> reaches env' (dev s') ->
         generic_read env = Some v -> generic_read env' = Some v' ->
         index0 v' = - index0 v ->
         locals (snd (GetCurrentFocusScore position0' env' s'))
         = locals (snd (GetCurrentFocusScore position0 env s)).
Proof.
  intros env env' s s' p p'.
  destruct (GetCurrentFocusScore_written p env s) as [x Hx].
  unfold GetLastFocusScore. rewrite Hx.
  split; [apply SFabs_score | split; [apply SFabs_score |]].
  intros v v' Hr Hr' Hv Hv' Hopp.
  rewrite <- Hx.
  rewrite (proj2 (GetCurrentFocusScore_read env s p v Hr Hv)).
  rewrite (proj2 (GetCurrentFocusScore_read env' s' p' v' Hr' Hv')).
  rewrite Hopp. apply score_of_opp.
Qed.

Lemma X17_focus_score_has_no_sign_witness :
  locals (snd (GetCurrentFocusScore S754_nan (reading_env (-2048))
                 (start initialized_dev S754_nan)))
  = locals (snd (GetCurrentFocusScore S754_nan (reading_env 2048)
                   (start initialized_dev S754_nan))).
Proof.
  assert (Hr : reaches (reading_env 2048) (dev (start initialized_dev S754_nan)))
    by (left; vm_compute; discriminate).
  assert (Hr' : reaches (reading_env (-2048)) (dev (start initialized_dev S754_nan)))
    by (left; vm_compute; discriminate).
  exact (proj2 (proj2 (X17_focus_score_has_no_sign (reading_env 2048) (reading_env (-2048))
                         (start initialized_dev S754_nan) (start initialized_dev S754_nan)
                         S754_nan S754_nan))
           [2048] [-2048] Hr Hr' eq_refl eq_refl eq_refl).
Defined.

(** *** The size of the image buffer *)

Lemma to_unsigned_range z : 0 <= PyCamera.to_unsigned z < 2 ^ 32.
Proof. unfold PyCamera.to_unsigned. apply Z.mod_pos_bound. reflexivity. Qed.

Lemma GetImageBuffer_state (c : PyCamera.CPyCamera) :
  snd (PyCamera.GetImageBuffer c)
  = PyCamera.mkCamera (PyCamera.object_ c) (PyCamera.py_read (PyCamera.object_ c)).
Proof.
  unfold PyCamera.GetImageBuffer. simpl.
  repeat match goal with |- context [match ?x with _ => _ end] => destruct x end;
    reflexivity.
Qed.

Lemma to_long_fits long_bits u :
  0 <= u < 2 ^ (long_bits - 1) -> 0 < long_bits -> PyCamera.to_long long_bits u = u.
Proof.
  intros Hu Hb. unfold PyCamera.to_long. cbv zeta.
  assert (Hp : 2 ^ long_bits = 2 * 2 ^ (long_bits - 1)).
  { rewrite <- Z.pow_succ_r by lia. f_equal. lia. }
  rewrite Z.mod_small by lia.
  destruct (Z.ltb_spec u (2 ^ (long_bits - 1))); lia.
Qed.

Lemma to_long_32_high u :
  2 ^ 31 <= u < 2 ^ 32 -> PyCamera.to_long 32 u = u - 2 ^ 32.
Proof.
  intros Hu. unfold PyCamera.to_long. cbv zeta.
  rewrite Z.mod_small by lia.
  change (32 - 1) with 31.
  destruct (Z.ltb_spec u (2 ^ 31)); lia.
Qed.

(** X18: [GetImageBufferSize] agrees with the buffer [GetImageBuffer]
    hands out as far as [unsigned] and [long] reach.  A pixel takes 2
    bytes.  On every path [GetImageBuffer] keeps in [lastImage_] what
    [read] answered, a rejected object included, and leaves [object_]
    alone.  When [GetImageBuffer] returns a buffer, the array behind it
    holds [n = PyArray_DIM 0 * PyArray_DIM 1 * 2] bytes, and with [long]
    at least 32 bits wide: [GetImageBufferSize] is [n] when [n] is below
    [2^31]; it is [n] up to [2^32] only where [long] is wider than 32
    bits; where [long] has 32 bits and [n] modulo [2^32] is [2^31] or
    more, it is negative; and when [n] is [2^32] or more it is less than
    the buffer holds, whatever the width. *)
Theorem X18_buffer_size_consistent :
  forall (long_bits : Z) (c : PyCamera.CPyCamera),
    32 <= long_bits ->
    PyCamera.GetImageBytesPerPixel c = 2
    /\ snd (PyCamera.GetImageBuffer c)
       = PyCamera.mkCamera (PyCamera.object_ c) (PyCamera.py_read (PyCamera.object_ c))
    /\ (fst (PyCamera.GetImageBuffer c) <> PyCamera.nullptr ->
        exists a,
          PyCamera.lastImage_ (snd (PyCamera.GetImageBuffer c)) = Some (PyCamera.PyArray a)
          /\ fst (PyCamera.GetImageBuffer c) = PyCamera.data a
          /\ let n := PyCamera.PyArray_DIM a 0 * PyCamera.PyArray_DIM a 1 * 2 in
             let size := PyCamera.GetImageBufferSize long_bits
                           (snd (PyCamera.GetImageBuffer c)) in
             size = PyCamera.to_long long_bits (n mod 2 ^ 32)
             /\ (n < 2 ^ 31 -> size = n)
             /\ (32 < long_bits -> n < 2 ^ 32 -> size = n)
             /\ (long_bits = 32 -> 2 ^ 31 <= n mod 2 ^ 32 ->
                 size = n mod 2 ^ 32 - 2 ^ 32 /\ size < 0)
             /\ (2 ^ 32 <= n -> size < n)).
Proof.
  intros long_bits c Hbits.
  split; [reflexivity | split; [apply GetImageBuffer_state |]].
  intros Hnn.
  destruct (PyCameraFacts.GetImageBuffer_nonnull c Hnn)
    as [a [Hr [(Hn & Ht & Hf & Hh & Hw) Hd]]].
  exists a. rewrite GetImageBuffer_state. cbn [PyCamera.lastImage_].
  split; [exact Hr | split; [exact Hd |]]. cbv zeta.
  unfold PyCamera.GetImageBufferSize, PyCamera.GetImageBytesPerPixel, PyCamera.GetBitDepth.
  unfold PyCamera.GetImageWidth, PyCamera.GetImageHeight in *.
  cbn [PyCamera.object_] in *. rewrite <- Hh, <- Hw.
  change ((16 + 7) / 8) with 2.
  pose proof (to_unsigned_range (PyCamera.py_height (PyCamera.object_ c))) as Bh.
  pose proof (to_unsigned_range (PyCamera.py_width (PyCamera.object_ c))) as Bw.
  rewrite <- Hh in Bh. rewrite <- Hw in Bw.
  rewrite (Z.mul_comm (PyCamera.PyArray_DIM a 1) (PyCamera.PyArray_DIM a 0)).
  set (n := PyCamera.PyArray_DIM a 0 * PyCamera.PyArray_DIM a 1 * 2).
  assert (Hn0 : 0 <= n) by (unfold n; nia).
  pose proof (Z.mod_pos_bound n (2 ^ 32) eq_refl) as Hm.
  assert (H31 : 2 ^ 31 <= 2 ^ (long_bits - 1)) by (apply Z.pow_le_mono_r; lia).
  assert (H32 : long_bits = 32 \/ 2 ^ 32 <= 2 ^ (long_bits - 1)).
  { destruct (Z.eq_dec long_bits 32); [left; assumption | right].
    apply Z.pow_le_mono_r; lia. }
  split; [reflexivity |]. split; [|split; [|split]].
  - intros Hlt. rewrite (Z.mod_small n) by lia. apply to_long_fits; lia.
  - intros Hwide Hlt. rewrite (Z.mod_small n) by lia.
    destruct H32 as [? | H32]; [lia|]. apply to_long_fits; lia.
  - intros -> Hhigh. rewrite to_long_32_high by lia. lia.
  - intros Hge. destruct H32 as [-> | H32].
    + destruct (Z.lt_ge_cases (n mod 2 ^ 32) (2 ^ 31)).
      * rewrite to_long_fits; lia.
      * rewrite to_long_32_high by lia. lia.
    + rewrite to_long_fits; lia.
Qed.

Lemma X18_buffer_size_consistent_witness :
  fst (PyCamera.GetImageBuffer camera_3x4) <> PyCamera.nullptr
  /\ exists a,
       PyCamera.lastImage_ (snd (PyCamera.GetImageBuffer camera_3x4))
       = Some (PyCamera.PyArray a)
       /\ fst (PyCamera.GetImageBuffer camera_3x4) = PyCamera.data a
       /\ let n := PyCamera.PyArray_DIM a 0 * PyCamera.PyArray_DIM a 1 * 2 in
          let size := PyCamera.GetImageBufferSize 32 (snd (PyCamera.GetImageBuffer camera_3x4)) in
          size = PyCamera.to_long 32 (n mod 2 ^ 32)
          /\ (n < 2 ^ 31 -> size = n)
          /\ (32 < 32 -> n < 2 ^ 32 -> size = n)
          /\ (32 = 32 -> 2 ^ 31 <= n mod 2 ^ 32 ->
              size = n mod 2 ^ 32 - 2 ^ 32 /\ size < 0)
          /\ (2 ^ 32 <= n -> size < n).
Proof.
  assert (H : fst (PyCamera.GetImageBuffer camera_3x4) <> PyCamera.nullptr)
    by (vm_compute; discriminate).
  assert (Hb : 32 <= 32) by lia.
  split; [exact H |].
  exact (proj2 (proj2 (X18_buffer_size_consistent 32 camera_3x4 Hb)) H).
Defined.
